(** * The multiplication example notebook

    A model of [docs/examples/basic/multiplication.ipynb]: the notebook as a
    document (cells and the names they bind and read), its code cells as
    programs over the public surface of the simulation library, the two
    functions it defines ([product] and [Product]), and the piecewise
    signals it hands to the library.

    Numbers: neuron counts and dimensions are Python integers ([Z]); times,
    breakpoint values and the arguments of [product] are rationals ([Q]),
    which hold every literal of the notebook exactly; a radius is a real
    ([R]), because one of them is a square root. The input magnitude handed
    to [Product] is a Python number, an int or a float, because the two
    differ in what squaring does when the result is out of range. *)

From Stdlib Require Import QArith Reals ZArith List Ascii String Bool.
From Stdlib Require Import Lia Lra Lqa.
Import ListNotations.

Set Warnings "-register-all".

Local Open Scope string_scope.
Local Open Scope Z_scope.
Local Open Scope list_scope.

(** ** The connection function *)

(** [def product(x): return x[0] * x[1]] of the Step-3 cell. [x] is a
    sequence of numbers; indexing past its end raises [IndexError], which is
    [None] here. *)
Definition product (x : list Q) : option Q :=
  match nth_error x 0, nth_error x 1 with
  | Some x0, Some x1 => Some (x0 * x1)%Q
  | _, _ => None
  end.

(** ** Piecewise signals *)

(** The argument of [Piecewise]: the items of the dict literal, time offset
    first, in the order they are written. *)
Definition breakpoints := list (Q * Q).

(** Modelled from the spec: the scan behind [Piecewise_value], for the latest
    breakpoint at or before [t]; [best] is the latest one seen so far. *)
Fixpoint latest_breakpoint (t : Q) (best : option (Q * Q)) (data : breakpoints)
  : option (Q * Q) :=
  match data with
  | [] => best
  | (k, v) :: rest =>
      if Qle_bool k t then
        match best with
        | Some (k', _) =>
            if Qle_bool k' k then latest_breakpoint t (Some (k, v)) rest
            else latest_breakpoint t best rest
        | None => latest_breakpoint t (Some (k, v)) rest
        end
      else latest_breakpoint t best rest
  end.

(** Modelled from the spec: the evaluation of a piecewise signal, which
    lives in the library and not in the notebook. The signal is constant
    between breakpoints and takes the value of its latest breakpoint at or
    before [t]; before the first breakpoint the spec gives it no value. *)
Definition Piecewise_value (data : breakpoints) (t : Q) : option Q :=
  option_map snd (latest_breakpoint t None data).

(** Breakpoints listed by strictly increasing time offset. *)
Fixpoint ascending (data : breakpoints) : bool :=
  match data with
  | [] => true
  | (k, _) :: rest =>
      forallb (fun kv => negb (Qle_bool (fst kv) k)) rest && ascending rest
  end.

(** ** The public surface of the library *)

(** The [synapse] argument of a connection or probe: left out, [None], or a
    filter time constant. *)
Inductive synapse : Type :=
| synapse_default
| synapse_none
| synapse_tau (tau : Q).

(** The calls the notebook makes into the simulation library and into the
    plotting library, with the arguments it passes. [Obj] is the type of the
    library's opaque objects (populations, connections, probes, simulator
    handle, series). Statements that run library code count as calls:
    imports, attribute reads and writes on library objects, indexing; so do
    the two halves of a [with] block. *)
Inductive api (Obj : Type) : Type :=
| line_magic (line : string)
| import_module (name : string)
| nengo_Network (label : string)
| ctx_enter (mgr : Obj)
| ctx_exit (mgr : Obj) (raised : bool)
| nengo_Ensemble (n_neurons : Z) (dimensions : Z) (radius : R)
    (encoders : option Obj)
| Choice (options : list (list Z))
| Piecewise (data : breakpoints)
| nengo_Node (output : option Obj) (size_in : option Z)
| setattr (obj : Obj) (name : string) (value : Obj)
| getattr (obj : Obj) (name : string)
| getitem (obj : Obj) (index : Z)
| lookup (obj : Obj) (key : Obj)
| nengo_Connection (pre post : Obj) (function : option (list Q -> option Q))
    (syn : synapse)
| nengo_Probe (target : Obj) (syn : synapse)
| nengo_Simulator (network : Obj)
| sim_run (sim : Obj) (time_in_seconds : Q)
| sim_trange (sim : Obj)
| process_run (process : Obj) (t : Obj) (dt : Obj)
| plt_figure
| plt_plot (x y : Obj) (c : option string) (label : string)
| plt_legend (loc : string)
| plt_ylim (bottom top : Z).

Arguments line_magic {Obj}.
Arguments import_module {Obj}.
Arguments nengo_Network {Obj}.
Arguments ctx_enter {Obj}.
Arguments ctx_exit {Obj}.
Arguments nengo_Ensemble {Obj}.
Arguments Choice {Obj}.
Arguments Piecewise {Obj}.
Arguments nengo_Node {Obj}.
Arguments setattr {Obj}.
Arguments getattr {Obj}.
Arguments getitem {Obj}.
Arguments lookup {Obj}.
Arguments nengo_Connection {Obj}.
Arguments nengo_Probe {Obj}.
Arguments nengo_Simulator {Obj}.
Arguments sim_run {Obj}.
Arguments sim_trange {Obj}.
Arguments process_run {Obj}.
Arguments plt_figure {Obj}.
Arguments plt_plot {Obj}.
Arguments plt_legend {Obj}.
Arguments plt_ylim {Obj}.

(** ** Running Python statements *)

(** A statement either completes with a value or raises. *)
Inductive result (E A : Type) : Type :=
| Ok (a : A)
| Raise (e : E).

Arguments Ok {E A}.
Arguments Raise {E A}.

(** A computation over the state [St] of the interpreter and the library;
    what was done before an exception stays done. *)
Definition Py (St E A : Type) : Type := St -> St * result E A.

Definition ret {St E A : Type} (a : A) : Py St E A := fun s => (s, Ok a).

Definition bind {St E A B : Type} (c : Py St E A) (k : A -> Py St E B)
  : Py St E B :=
  fun s =>
    match c s with
    | (s', Ok a) => k a s'
    | (s', Raise e) => (s', Raise e)
    end.

Declare Scope py_scope.
Delimit Scope py_scope with py.
Notation "x <- c ;; k" := (bind c (fun x => k))
  (at level 61, c at next level, right associativity) : py_scope.
Notation "' pat <- c ;; k" := (bind c (fun x => let 'pat := x in k))
  (at level 61, pat pattern, c at next level, right associativity) : py_scope.
Notation "c ;; k" := (bind c (fun _ => k))
  (at level 61, right associativity) : py_scope.

(** The library as the notebook sees it: something that answers calls. The
    square root of the numerics library returns a number, not an object, and
    has an entry of its own. *)
Record Library (St E Obj : Type) : Type := {
  call : api Obj -> Py St E Obj;
  np_sqrt : R -> Py St E R
}.

Arguments call {St E Obj}.
Arguments np_sqrt {St E Obj}.

(** ** Python numbers *)

(** An int of any size, or a float, taken as the real number it stands
    for. *)
Inductive number : Type :=
| pyint (z : Z)
| pyfloat (x : R).

Definition real_of (m : number) : R :=
  match m with
  | pyint z => IZR z
  | pyfloat x => x
  end.

(** The square of a float is a float again when the magnitude is below
    [2 ^ 512]; from there on the result is out of the range of floats. *)
Definition no_overflow (m : number) : Prop :=
  match m with
  | pyint _ => True
  | pyfloat x => (Rabs x < 2 ^ 512)%R
  end.

(** The square of a number, as a number of the same kind. *)
Definition number_square (m : number) : number :=
  match m with
  | pyint z => pyint (z ^ 2)
  | pyfloat x => pyfloat (x ^ 2)
  end.

(** [m ** 2]. On an int it is exact whatever the size; on a float whose
    square is out of range it raises [OverflowError], which is [None]
    here. *)
Definition number_pow2 (m : number) : option number :=
  match m with
  | pyint _ => Some (number_square m)
  | pyfloat x =>
      if Rlt_dec (Rabs x) (2 ^ 512) then Some (number_square m) else None
  end.

(** [a + b]: an int when both are, a float otherwise. *)
Definition number_add (a b : number) : number :=
  match a, b with
  | pyint x, pyint y => pyint (x + y)
  | _, _ => pyfloat (real_of a + real_of b)
  end.

(** [m * k] for an int literal [k]. *)
Definition number_mul (m : number) (k : Z) : number :=
  match m with
  | pyint z => pyint (z * k)
  | pyfloat x => pyfloat (x * IZR k)
  end.

(** ** The code cells *)

Section Notebook.

Context {St E Obj : Type}.
Variable L : Library St E Obj.

(** The exception the interpreter raises when a float operation of the
    notebook's own code is out of range. *)
Variable OverflowError : E.

Local Open Scope py_scope.
Local Abbreviation lib := (call L).
Local Abbreviation Py := (Py St E).

(** [raise e]. *)
Definition raise {A : Type} (e : E) : Py A := fun s => (s, Raise e).

(** [m ** 2] as a statement of the notebook: the value, or
    [OverflowError]. *)
Definition power2 (m : number) : Py number :=
  match number_pow2 m with
  | Some square => ret square
  | None => raise OverflowError
  end.

(** [with mgr as v: body]. The context managers of the library (a network,
    a simulator) return [None] from [__exit__], so the block never swallows
    what its body raises; an exception raised by [__exit__] itself
    replaces it. *)
Definition with_ {A : Type} (mgr : Obj) (body : Obj -> Py A) : Py A :=
  fun s =>
    match lib (ctx_enter mgr) s with
    | (s1, Raise e) => (s1, Raise e)
    | (s1, Ok v) =>
        match body v s1 with
        | (s2, Ok a) =>
            match lib (ctx_exit mgr false) s2 with
            | (s3, Ok _) => (s3, Ok a)
            | (s3, Raise e) => (s3, Raise e)
            end
        | (s2, Raise e) =>
            match lib (ctx_exit mgr true) s2 with
            | (s3, Ok _) => (s3, Raise e)
            | (s3, Raise e') => (s3, Raise e')
            end
        end
    end.

(** The four encoder directions, the corners of the square. *)
Definition corners : list (list Z) := [[1; 1]; [-1; 1]; [1; -1]; [-1; -1]].

(** First code cell: the plotting magic and the imports. *)
Definition cell_imports : Py unit :=
  lib (line_magic "matplotlib inline");;
  lib (import_module "matplotlib.pyplot");;
  lib (import_module "numpy");;
  lib (import_module "nengo");;
  lib (import_module "nengo.dists");;
  lib (import_module "nengo.processes");;
  ret tt.

(** Step 1: the model and its four ensembles. Binds [model], [A], [B],
    [combined], [prod]. *)
Definition cell_step1 : Py (Obj * Obj * Obj * Obj * Obj) :=
  model <- lib (nengo_Network "Multiplication");;
  '(A, B, combined, prod) <- with_ model (fun _ =>
    A <- lib (nengo_Ensemble 100 1 10 None);;
    B <- lib (nengo_Ensemble 100 1 10 None);;
    combined <- lib (nengo_Ensemble 220 2 15 None);;
    prod <- lib (nengo_Ensemble 100 1 20 None);;
    ret (A, B, combined, prod));;
  encoders <- lib (Choice corners);;
  lib (setattr combined "encoders" encoders);;
  ret (model, A, B, combined, prod).

(** Step 2: the two input nodes and the reference signal. Binds
    [inputA], [inputB], [correct_ans]. *)
Definition cell_step2 (model : Obj) : Py (Obj * Obj * Obj) :=
  with_ model (fun _ =>
    pA <- lib (Piecewise [(0, 0); (2.5, 10); (4, -10)]%Q);;
    inputA <- lib (nengo_Node (Some pA) None);;
    pB <- lib (Piecewise [(0, 10); (1.5, 2); (3, 0); (4.5, 2)]%Q);;
    inputB <- lib (nengo_Node (Some pB) None);;
    correct_ans <- lib (Piecewise
      [(0, 0); (1.5, 0); (2.5, 20); (3, 0); (4, 0); (4.5, -20)]%Q);;
    ret (inputA, inputB, correct_ans)).

(** Step 3: the five connections; [product] is the function defined in
    this cell. *)
Definition cell_step3 (model inputA inputB A B combined prod : Obj)
  : Py unit :=
  with_ model (fun _ =>
    lib (nengo_Connection inputA A None synapse_default);;
    lib (nengo_Connection inputB B None synapse_default);;
    combined_0 <- lib (getitem combined 0);;
    lib (nengo_Connection A combined_0 None synapse_default);;
    combined_1 <- lib (getitem combined 1);;
    lib (nengo_Connection B combined_1 None synapse_default);;
    lib (nengo_Connection combined prod (Some product) synapse_default);;
    ret tt).

(** Step 4: the probes. Binds [inputA_probe], [inputB_probe], [A_probe],
    [B_probe], [combined_probe], [prod_probe]. *)
Definition cell_step4 (model inputA inputB A B combined prod : Obj)
  : Py (Obj * Obj * Obj * Obj * Obj * Obj) :=
  with_ model (fun _ =>
    inputA_probe <- lib (nengo_Probe inputA synapse_default);;
    inputB_probe <- lib (nengo_Probe inputB synapse_default);;
    A_probe <- lib (nengo_Probe A (synapse_tau 0.01));;
    B_probe <- lib (nengo_Probe B (synapse_tau 0.01));;
    combined_probe <- lib (nengo_Probe combined (synapse_tau 0.01));;
    prod_probe <- lib (nengo_Probe prod (synapse_tau 0.01));;
    ret (inputA_probe, inputB_probe, A_probe, B_probe, combined_probe,
         prod_probe)).

(** Step 5: build the simulator and run it for five seconds. Binds
    [sim]. *)
Definition cell_step5 (model : Obj) : Py Obj :=
  simulator <- lib (nengo_Simulator model);;
  with_ simulator (fun sim =>
    lib (sim_run sim 5);;
    ret sim).

(** Step 6: the plot. The same statements end the last cell. *)
Definition cell_step6 (sim A_probe B_probe prod_probe correct_ans : Obj)
  : Py unit :=
  lib plt_figure;;
  t <- lib (sim_trange sim);;
  data <- lib (getattr sim "data");;
  y <- lib (lookup data A_probe);;
  lib (plt_plot t y None "Decoded A");;
  t <- lib (sim_trange sim);;
  data <- lib (getattr sim "data");;
  y <- lib (lookup data B_probe);;
  lib (plt_plot t y None "Decoded B");;
  t <- lib (sim_trange sim);;
  data <- lib (getattr sim "data");;
  y <- lib (lookup data prod_probe);;
  lib (plt_plot t y None "Decoded product");;
  t <- lib (sim_trange sim);;
  time <- lib (getattr sim "time");;
  dt <- lib (getattr sim "dt");;
  y <- lib (process_run correct_ans time dt);;
  lib (plt_plot t y (Some "k") "Actual product");;
  lib (plt_legend "best");;
  lib (plt_ylim (-25) 25);;
  ret tt.

(** [def product(x)] inside [Product]: a second definition with the same
    body as the one of Step 3. *)
Definition Product_product (x : list Q) : option Q :=
  match nth_error x 0, nth_error x 1 with
  | Some x0, Some x1 => Some (x0 * x1)%Q
  | _, _ => None
  end.

(** Bonus step: the function that builds the product subnetwork. The
    objects it keeps are attributes of the network it returns. The two
    squares under the root are computed by the notebook's own code, before
    the root is asked of the library. *)
Definition Product (neuron_per_dimension : Z) (input_magnitude : number)
  : Py Obj :=
  model <- lib (nengo_Network "Product");;
  with_ model (fun _ =>
    node_A <- lib (nengo_Node None (Some 1));;
    lib (setattr model "A" node_A);;
    node_B <- lib (nengo_Node None (Some 1));;
    lib (setattr model "B" node_B);;
    square <- power2 input_magnitude;;
    square' <- power2 input_magnitude;;
    radius <- np_sqrt L (real_of (number_add square square'));;
    encoders <- lib (Choice corners);;
    ens <- lib (nengo_Ensemble (neuron_per_dimension * 2) 2 radius
                  (Some encoders));;
    lib (setattr model "combined" ens);;
    ens <- lib (nengo_Ensemble neuron_per_dimension 1
                  (real_of (number_mul input_magnitude 2)) None);;
    lib (setattr model "prod" ens);;
    model_A <- lib (getattr model "A");;
    model_combined <- lib (getattr model "combined");;
    combined_0 <- lib (getitem model_combined 0);;
    lib (nengo_Connection model_A combined_0 None synapse_none);;
    model_B <- lib (getattr model "B");;
    model_combined <- lib (getattr model "combined");;
    combined_1 <- lib (getitem model_combined 1);;
    lib (nengo_Connection model_B combined_1 None synapse_none);;
    model_combined <- lib (getattr model "combined");;
    model_prod <- lib (getattr model "prod");;
    lib (nengo_Connection model_combined model_prod (Some Product_product)
           synapse_default);;
    ret tt);;
  ret model.

(** Bonus step, the rest of the cell: the model built again around
    [Product(100, input_magnitude=10)], run and plotted. [correct_ans] is
    the object of Step 2. *)
Definition cell_bonus (correct_ans : Obj) : Py unit :=
  model <- lib (nengo_Network "Multiplication");;
  '(A_probe, B_probe, prod_probe) <- with_ model (fun _ =>
    pA <- lib (Piecewise [(0, 0); (2.5, 10); (4, -10)]%Q);;
    inputA <- lib (nengo_Node (Some pA) None);;
    pB <- lib (Piecewise [(0, 10); (1.5, 2); (3, 0); (4.5, 2)]%Q);;
    inputB <- lib (nengo_Node (Some pB) None);;
    A <- lib (nengo_Ensemble 100 1 10 None);;
    B <- lib (nengo_Ensemble 100 1 10 None);;
    prod <- Product 100 (pyint 10);;
    lib (nengo_Connection inputA A None synapse_default);;
    lib (nengo_Connection inputB B None synapse_default);;
    prod_A <- lib (getattr prod "A");;
    lib (nengo_Connection A prod_A None synapse_default);;
    prod_B <- lib (getattr prod "B");;
    lib (nengo_Connection B prod_B None synapse_default);;
    inputA_probe <- lib (nengo_Probe inputA synapse_default);;
    inputB_probe <- lib (nengo_Probe inputB synapse_default);;
    A_probe <- lib (nengo_Probe A (synapse_tau 0.01));;
    B_probe <- lib (nengo_Probe B (synapse_tau 0.01));;
    prod_combined <- lib (getattr prod "combined");;
    combined_probe <- lib (nengo_Probe prod_combined (synapse_tau 0.01));;
    prod_prod <- lib (getattr prod "prod");;
    prod_probe <- lib (nengo_Probe prod_prod (synapse_tau 0.01));;
    ret (A_probe, B_probe, prod_probe));;
  sim <- cell_step5 model;;
  cell_step6 sim A_probe B_probe prod_probe correct_ans.

(** The global names bound by Steps 1 to 6 that the theorems refer to. *)
Record namespace : Type := {
  ns_model : Obj;
  ns_A : Obj;
  ns_B : Obj;
  ns_combined : Obj;
  ns_prod : Obj;
  ns_inputA : Obj;
  ns_inputB : Obj;
  ns_correct_ans : Obj;
  ns_sim : Obj
}.

(** The code cells of Steps 1 to 6 in order: the model declared, wired,
    probed, run and plotted. *)
Definition flat_model : Py namespace :=
  cell_imports;;
  '(model, A, B, combined, prod) <- cell_step1;;
  '(inputA, inputB, correct_ans) <- cell_step2 model;;
  cell_step3 model inputA inputB A B combined prod;;
  '(inputA_probe, inputB_probe, A_probe, B_probe, combined_probe,
    prod_probe) <- cell_step4 model inputA inputB A B combined prod;;
  sim <- cell_step5 model;;
  cell_step6 sim A_probe B_probe prod_probe correct_ans;;
  ret {| ns_model := model; ns_A := A; ns_B := B; ns_combined := combined;
         ns_prod := prod; ns_inputA := inputA; ns_inputB := inputB;
         ns_correct_ans := correct_ans; ns_sim := sim |}.

(** Every code cell, top to bottom. *)
Definition notebook : Py unit :=
  ns <- flat_model;;
  cell_bonus (ns_correct_ans ns).

End Notebook.

Arguments ns_model {Obj}.
Arguments ns_A {Obj}.
Arguments ns_B {Obj}.
Arguments ns_combined {Obj}.
Arguments ns_prod {Obj}.
Arguments ns_inputA {Obj}.
Arguments ns_inputB {Obj}.
Arguments ns_correct_ans {Obj}.
Arguments ns_sim {Obj}.

(** ** A library that records *)

(** The calls received so far, newest first. An object is named by the
    number of calls made before the one that created it. *)
Definition trace : Type := list (api nat).

(** The value last stored under [obj.name]. *)
Fixpoint attribute (obj : nat) (name : string) (calls : trace) : option nat :=
  match calls with
  | [] => None
  | setattr o n v :: older =>
      if Nat.eqb o obj && String.eqb n name then Some v
      else attribute obj name older
  | _ :: older => attribute obj name older
  end.

(** Modelled from the spec: what the recording library hands back. A context
    manager enters as itself, an attribute that was stored reads back as
    stored, and every other call yields a fresh object. *)
Definition recorder_answer (c : api nat) (calls : trace) : nat :=
  match c with
  | ctx_enter mgr => mgr
  | getattr obj name =>
      match attribute obj name calls with
      | Some v => v
      | None => List.length calls
      end
  | _ => List.length calls
  end.

(** Modelled from the spec: the external library, of which the notebook
    shows only the public surface. This stand-in accepts every call, keeps
    the parameters it is handed and computes nothing but the square root. *)
Definition recorder {E : Type} : Library trace E nat := {|
  call := fun c calls => (c :: calls, Ok (recorder_answer c calls));
  np_sqrt := fun x calls => (calls, Ok (sqrt x))
|}.

(** The call that created object [o]. *)
Definition made_by (calls : trace) (o : nat) : option (api nat) :=
  nth_error (rev calls) o.

Fixpoint numbered (i : nat) (h : list (api nat)) : list (nat * api nat) :=
  match h with
  | [] => []
  | c :: rest => (i, c) :: numbered (S i) rest
  end.

(** The calls in the order they were made, each with the object it
    created. *)
Definition history (calls : trace) : list (nat * api nat) :=
  numbered 0 (rev calls).

Definition is_ensemble (c : api nat) : bool :=
  match c with nengo_Ensemble _ _ _ _ => true | _ => false end.

Definition is_connection (c : api nat) : bool :=
  match c with nengo_Connection _ _ _ _ => true | _ => false end.

Definition has_function (c : api nat) : bool :=
  match c with nengo_Connection _ _ (Some _) _ => true | _ => false end.

(** The populations declared, in order. *)
Definition ensembles (calls : trace) : list (nat * api nat) :=
  filter (fun oc => is_ensemble (snd oc)) (history calls).

(** The connections declared, in order. *)
Definition connections (calls : trace) : list (nat * api nat) :=
  filter (fun oc => is_connection (snd oc)) (history calls).

(** The breakpoints a process object was built from. *)
Definition process_data (calls : trace) (p : nat) : option breakpoints :=
  match made_by calls p with
  | Some (Piecewise data) => Some data
  | _ => None
  end.

(** The breakpoints of the process a node outputs. *)
Definition node_signal (calls : trace) (n : nat) : option breakpoints :=
  match made_by calls n with
  | Some (nengo_Node (Some p) _) => process_data calls p
  | _ => None
  end.

(** Every piecewise signal built, in order. *)
Definition signals (calls : trace) : list breakpoints :=
  flat_map (fun c => match c with Piecewise data => [data] | _ => [] end)
    (rev calls).

(** Steps 1 to 6 against the recording library, from nothing. *)
Definition flat_run : trace * result Empty_set (namespace (Obj := nat)) :=
  flat_model recorder [].

Definition flat_trace : trace := fst flat_run.

Definition flat_names : namespace (Obj := nat) :=
  match snd flat_run with
  | Ok ns => ns
  | Raise e => match e with end
  end.

(** The whole notebook against the recording library, from nothing. *)
Definition notebook_trace : trace :=
  fst (notebook recorder "OverflowError" []).

(** The value each signal of Step 2 holds at time [t]: the breakpoints are
    those the recording library was handed for the object behind the
    name. *)
Definition inputA_value (t : Q) : option Q :=
  match node_signal flat_trace (ns_inputA flat_names) with
  | Some data => Piecewise_value data t
  | None => None
  end.

Definition inputB_value (t : Q) : option Q :=
  match node_signal flat_trace (ns_inputB flat_names) with
  | Some data => Piecewise_value data t
  | None => None
  end.

Definition correct_ans_value (t : Q) : option Q :=
  match process_data flat_trace (ns_correct_ans flat_names) with
  | Some data => Piecewise_value data t
  | None => None
  end.

(** ** A library that may fail *)

(** A computation run next to a record of what it raised, newest first. *)
Definition logging {St E A : Type} (c : Py St E A) : Py (St * list E) E A :=
  fun sl =>
    match c (fst sl) with
    | (s', Ok a) => ((s', snd sl), Ok a)
    | (s', Raise e) => ((s', e :: snd sl), Raise e)
    end.

(** Any library, with every exception it raises written down as it leaves
    the library. *)
Definition logged {St E Obj : Type} (L : Library St E Obj)
  : Library (St * list E) E Obj := {|
  call := fun c => logging (call L c);
  np_sqrt := fun x => logging (np_sqrt L x)
|}.

(** What a run over a logged library looks like when whatever the library
    raises reaches the caller as it is: a run that completes has seen no
    exception, and a run that raises [e] has [e] as the library's latest. *)
Definition propagates {St E A : Type} (c : Py (St * list E) E A) : Prop :=
  forall (s : St) (raised : list E),
    match c (s, raised) with
    | ((_, raised'), Ok _) => raised' = raised
    | ((_, raised'), Raise e) => exists more, raised' = e :: more ++ raised
    end.

(** The same, for code that may also raise [own] itself: a run that fails
    raises the library's latest exception, or raises [own] with nothing new
    raised by the library. *)
Definition propagates_or_raises {St E A : Type} (own : E)
    (c : Py (St * list E) E A) : Prop :=
  forall (s : St) (raised : list E),
    match c (s, raised) with
    | ((_, raised'), Ok _) => raised' = raised
    | ((_, raised'), Raise e) =>
        (exists more, raised' = e :: more ++ raised)
        \/ (e = own /\ raised' = raised)
    end.

(** A library in which running the simulator fails and every other call
    goes through: something to run the cells against when a call does
    raise. *)
Definition stalling : Library unit string unit := {|
  call := fun c s =>
    match c with
    | sim_run _ _ => (s, Raise "SimulationError")
    | _ => (s, Ok tt)
    end;
  np_sqrt := fun x s => (s, Ok (sqrt x))
|}.

(** ** A library under audit *)

(** One call into the library and whether it came back without raising. *)
Inductive event (Obj : Type) : Type :=
| called (c : api Obj) (succeeded : bool)
| sqrt_called (x : R) (succeeded : bool).

Arguments called {Obj}.
Arguments sqrt_called {Obj}.

(** A computation run next to the list of the calls made, oldest first. *)
Definition auditing {St E Obj A : Type} (entry : bool -> event Obj)
    (c : Py St E A) : Py (St * list (event Obj)) E A :=
  fun sl =>
    match c (fst sl) with
    | (s', Ok a) => ((s', snd sl ++ [entry true]), Ok a)
    | (s', Raise e) => ((s', snd sl ++ [entry false]), Raise e)
    end.

(** Any library, with every call it receives written down together with
    its outcome. *)
Definition audited {St E Obj : Type} (L : Library St E Obj)
  : Library (St * list (event Obj)) E Obj := {|
  call := fun c => auditing (called c) (call L c);
  np_sqrt := fun x => auditing (sqrt_called x) (np_sqrt L x)
|}.

Definition succeeded {Obj : Type} (ev : event Obj) : bool :=
  match ev with
  | called _ ok => ok
  | sqrt_called _ ok => ok
  end.

(** The call that leaves a [with] block whose body raised. *)
Definition leaving {Obj : Type} (ev : event Obj) : bool :=
  match ev with
  | called (ctx_exit _ true) _ => true
  | _ => false
  end.

(** Up to the first call that fails anything goes; after it, only calls
    that leave the blocks still open. *)
Fixpoint only_leaving_after_failure {Obj : Type} (log : list (event Obj))
  : bool :=
  match log with
  | [] => true
  | ev :: rest =>
      if succeeded ev then only_leaving_after_failure rest
      else forallb leaving rest
  end.

(** A block was entered (the entering call came back), or is being left. *)
Definition opens_or_closes {Obj : Type} (ev : event Obj) : bool :=
  match ev with
  | called (ctx_enter _) true => true
  | called (ctx_exit _ _) _ => true
  | _ => false
  end.

(** Calls in which every block that was entered is left again, by the same
    context manager and in nesting order. *)
Inductive bracketed {Obj : Type} : list (event Obj) -> Prop :=
| bracketed_nil : bracketed []
| bracketed_call (ev : event Obj) (rest : list (event Obj)) :
    opens_or_closes ev = false -> bracketed rest -> bracketed (ev :: rest)
| bracketed_block (mgr : Obj) (raised ok : bool)
    (inner rest : list (event Obj)) :
    bracketed inner -> bracketed rest ->
    bracketed (called (ctx_enter mgr) true
               :: inner ++ called (ctx_exit mgr raised) ok :: rest).

(** A call made outside the two halves of a [with] statement. *)
Definition plain_call {Obj : Type} (c : api Obj) : bool :=
  match c with
  | ctx_enter _ | ctx_exit _ _ => false
  | _ => true
  end.

(** How a run over an audited library treats blocks and failures: the calls
    it adds are bracketed; if it completes, all of them succeeded; if it
    raises, one of them failed and nothing but leaving followed. *)
Definition disciplined {St E Obj A : Type}
    (c : Py (St * list (event Obj)) E A) : Prop :=
  forall (s : St) (log : list (event Obj)),
  exists new : list (event Obj),
    snd (fst (c (s, log))) = log ++ new
    /\ bracketed new
    /\ match snd (c (s, log)) with
       | Ok _ => forallb succeeded new = true
       | Raise _ =>
           forallb succeeded new = false
           /\ only_leaving_after_failure new = true
       end.

(** Every block a run enters it also leaves. *)
Definition leaves_its_blocks {St E Obj A : Type}
    (c : Py (St * list (event Obj)) E A) : Prop :=
  forall (s : St) (log : list (event Obj)),
  exists new : list (event Obj),
    snd (fst (c (s, log))) = log ++ new /\ bracketed new.

(** A run that completes has seen every call succeed; a run that raises has
    seen a call fail and, after the first that did, made no call but to
    leave its blocks. *)
Definition stops_at_failure {St E Obj A : Type}
    (c : Py (St * list (event Obj)) E A) : Prop :=
  forall (s : St) (log : list (event Obj)),
  exists new : list (event Obj),
    snd (fst (c (s, log))) = log ++ new
    /\ match snd (c (s, log)) with
       | Ok _ => forallb succeeded new = true
       | Raise _ =>
           forallb succeeded new = false
           /\ only_leaving_after_failure new = true
       end.

(** The calls made between two moments of a recording, oldest first. *)
Definition made_since (before after : trace) : list (api nat) :=
  rev (firstn (List.length after - List.length before) after).

(** Object [o] was made by declaring an ensemble. *)
Definition is_ensemble_made (calls : trace) (o : nat) : Prop :=
  match made_by calls o with
  | Some c => is_ensemble c = true
  | None => False
  end.

(** The radius an ensemble was declared with. *)
Definition ensemble_radius (calls : trace) (o : nat) : option R :=
  match made_by calls o with
  | Some (nengo_Ensemble _ _ radius _) => Some radius
  | _ => None
  end.

(** ** The notebook as a document *)

Module Document.

(** Expressions of the code cells. A negative literal is a negation, as the
    language parses it. *)
Inductive expr : Type :=
| Name (id : string)
| Num (q : Q)
| Str (s : string)
| NoneLit
| Neg (operand : expr)
| BinOp (lhs : expr) (op : string) (rhs : expr)
| Attribute (value : expr) (attr : string)
| Subscript (value : expr) (index : expr)
| ListLit (elts : list expr)
| DictLit (items : list (expr * expr))
| Call (func : expr) (args : list expr) (keywords : list (string * expr)).

(** Statements of the code cells; comments are left out. *)
Inductive stmt : Type :=
| Magic (line : string)
| Import (module : string) (asname : option string)
| ImportFrom (module : string) (name : string)
| Assign (target : expr) (value : expr)
| ExprStmt (value : expr)
| With (context : expr) (asname : option string) (body : list stmt)
| FunctionDef (name : string) (args : list string) (body : list stmt)
| Return (value : expr).

Inductive cell : Type :=
| markdown (source : list string)
| code (source : list stmt).

(** The names an expression reads. *)
Fixpoint loads (e : expr) : list string :=
  match e with
  | Name id => [id]
  | Num _ | Str _ | NoneLit => []
  | Neg operand => loads operand
  | BinOp lhs _ rhs => loads lhs ++ loads rhs
  | Attribute value _ => loads value
  | Subscript value index => loads value ++ loads index
  | ListLit elts => flat_map loads elts
  | DictLit items => flat_map (fun kv => loads (fst kv) ++ loads (snd kv)) items
  | Call func args keywords =>
      loads func ++ flat_map loads args
        ++ flat_map (fun kw => loads (snd kw)) keywords
  end.

(** The first component of a dotted module path: what [import a.b] binds. *)
Fixpoint package (module : string) : string :=
  match module with
  | EmptyString => EmptyString
  | String "."%char _ => EmptyString
  | String c rest => String c (package rest)
  end.

(** The names a statement binds in the scope it stands in. *)
Fixpoint binds (s : stmt) : list string :=
  match s with
  | Magic _ => []
  | Import module None => [package module]
  | Import _ (Some asname) => [asname]
  | ImportFrom _ name => [name]
  | Assign (Name id) _ => [id]
  | Assign _ _ => []
  | ExprStmt _ => []
  | With _ asname body =>
      match asname with Some v => [v] | None => [] end ++ flat_map binds body
  | FunctionDef name _ _ => [name]
  | Return _ => []
  end.

Definition mentions (names : list string) (id : string) : bool :=
  existsb (String.eqb id) names.

Definition without (names bound : list string) : list string :=
  filter (fun id => negb (mentions bound id)) names.

(** The names a statement reads from the scope it stands in. A function
    body reads from outside whatever is neither a parameter nor bound in
    the body. *)
Fixpoint reads (s : stmt) : list string :=
  match s with
  | Magic _ | Import _ _ | ImportFrom _ _ => []
  | Assign (Name _) value => loads value
  | Assign target value => loads value ++ loads target
  | ExprStmt value => loads value
  | With context _ body => loads context ++ flat_map reads body
  | FunctionDef _ args body =>
      without (flat_map reads body) (args ++ flat_map binds body)
  | Return value => loads value
  end.

(** The names a code cell creates, the names it uses, and the names it uses
    without creating them. *)
Definition created (source : list stmt) : list string := flat_map binds source.

Definition used (source : list stmt) : list string := flat_map reads source.

Definition needs (source : list stmt) : list string :=
  without (used source) (created source).

(** Shorthands for writing the cells down. *)
Definition dot (obj attr : string) : expr := Attribute (Name obj) attr.

Definition int (z : Z) : expr :=
  if Z.ltb z 0 then Neg (Num (inject_Z (- z))) else Num (inject_Z z).

Definition pair_list (a b : Z) : expr := ListLit [int a; int b].

Definition corners_literal : expr :=
  ListLit [pair_list 1 1; pair_list (-1) 1; pair_list 1 (-1);
           pair_list (-1) (-1)].

Definition inputA_literal : expr :=
  DictLit [(Num 0, Num 0); (Num 2.5, Num 10); (Num 4, Neg (Num 10))].

Definition inputB_literal : expr :=
  DictLit [(Num 0, Num 10); (Num 1.5, Num 2); (Num 3, Num 0);
           (Num 4.5, Num 2)].

Definition correct_ans_literal : expr :=
  DictLit [(Num 0, Num 0); (Num 1.5, Num 0); (Num 2.5, Num 20);
           (Num 3, Num 0); (Num 4, Num 0); (Num 4.5, Neg (Num 20))].

Definition ensemble_call (n dimensions radius : Z) : expr :=
  Call (dot "nengo" "Ensemble") [int n]
    [("dimensions", int dimensions); ("radius", int radius)].

Definition probe_call (target : expr) (filtered : bool) : expr :=
  Call (dot "nengo" "Probe") [target]
    (if filtered then [("synapse", Num 0.01)] else []).

Definition connect (pre post : expr) (keywords : list (string * expr))
  : stmt :=
  ExprStmt (Call (dot "nengo" "Connection") [pre; post] keywords).

Definition plot_decoded (probe label : string) : stmt :=
  ExprStmt (Call (dot "plt" "plot")
    [Call (dot "sim" "trange") [] [];
     Subscript (dot "sim" "data") (Name probe)]
    [("label", Str label)]).

Definition product_def : stmt :=
  FunctionDef "product" ["x"]
    [Return (BinOp (Subscript (Name "x") (Num 0)) "*"
                   (Subscript (Name "x") (Num 1)))].

Definition code_imports : list stmt :=
  [Magic "matplotlib inline";
   Import "matplotlib.pyplot" (Some "plt");
   Import "numpy" (Some "np");
   Import "nengo" None;
   ImportFrom "nengo.dists" "Choice";
   ImportFrom "nengo.processes" "Piecewise"].

Definition code_step1 : list stmt :=
  [Assign (Name "model")
     (Call (dot "nengo" "Network") [] [("label", Str "Multiplication")]);
   With (Name "model") None
     [Assign (Name "A") (ensemble_call 100 1 10);
      Assign (Name "B") (ensemble_call 100 1 10);
      Assign (Name "combined") (ensemble_call 220 2 15);
      Assign (Name "prod") (ensemble_call 100 1 20)];
   Assign (dot "combined" "encoders") (Call (Name "Choice") [corners_literal] [])].

Definition code_step2 : list stmt :=
  [With (Name "model") None
     [Assign (Name "inputA")
        (Call (dot "nengo" "Node")
           [Call (Name "Piecewise") [inputA_literal] []] []);
      Assign (Name "inputB")
        (Call (dot "nengo" "Node")
           [Call (Name "Piecewise") [inputB_literal] []] []);
      Assign (Name "correct_ans")
        (Call (Name "Piecewise") [correct_ans_literal] [])]].

Definition code_step3 : list stmt :=
  [With (Name "model") None
     [connect (Name "inputA") (Name "A") [];
      connect (Name "inputB") (Name "B") [];
      connect (Name "A") (Subscript (Name "combined") (Num 0)) [];
      connect (Name "B") (Subscript (Name "combined") (Num 1)) [];
      product_def;
      connect (Name "combined") (Name "prod") [("function", Name "product")]]].

Definition code_step4 : list stmt :=
  [With (Name "model") None
     [Assign (Name "inputA_probe") (probe_call (Name "inputA") false);
      Assign (Name "inputB_probe") (probe_call (Name "inputB") false);
      Assign (Name "A_probe") (probe_call (Name "A") true);
      Assign (Name "B_probe") (probe_call (Name "B") true);
      Assign (Name "combined_probe") (probe_call (Name "combined") true);
      Assign (Name "prod_probe") (probe_call (Name "prod") true)]].

Definition code_step5 : list stmt :=
  [With (Call (dot "nengo" "Simulator") [Name "model"] []) (Some "sim")
     [ExprStmt (Call (dot "sim" "run") [Num 5] [])]].

Definition code_step6 : list stmt :=
  [ExprStmt (Call (dot "plt" "figure") [] []);
   plot_decoded "A_probe" "Decoded A";
   plot_decoded "B_probe" "Decoded B";
   plot_decoded "prod_probe" "Decoded product";
   ExprStmt (Call (dot "plt" "plot")
     [Call (dot "sim" "trange") [] [];
      Call (dot "correct_ans" "run") [dot "sim" "time"]
        [("dt", dot "sim" "dt")]]
     [("c", Str "k"); ("label", Str "Actual product")]);
   ExprStmt (Call (dot "plt" "legend") [] [("loc", Str "best")]);
   ExprStmt (Call (dot "plt" "ylim") [int (-25); int 25] [])].

Definition Product_def : stmt :=
  FunctionDef "Product" ["neuron_per_dimension"; "input_magnitude"]
    [Assign (Name "model")
       (Call (dot "nengo" "Network") [] [("label", Str "Product")]);
     With (Name "model") None
       [Assign (dot "model" "A")
          (Call (dot "nengo" "Node") []
             [("output", NoneLit); ("size_in", Num 1)]);
        Assign (dot "model" "B")
          (Call (dot "nengo" "Node") []
             [("output", NoneLit); ("size_in", Num 1)]);
        Assign (dot "model" "combined")
          (Call (dot "nengo" "Ensemble")
             [BinOp (Name "neuron_per_dimension") "*" (Num 2)]
             [("dimensions", Num 2);
              ("radius",
               Call (dot "np" "sqrt")
                 [BinOp (BinOp (Name "input_magnitude") "**" (Num 2)) "+"
                        (BinOp (Name "input_magnitude") "**" (Num 2))] []);
              ("encoders", Call (Name "Choice") [corners_literal] [])]);
        Assign (dot "model" "prod")
          (Call (dot "nengo" "Ensemble") [Name "neuron_per_dimension"]
             [("dimensions", Num 1);
              ("radius", BinOp (Name "input_magnitude") "*" (Num 2))]);
        connect (dot "model" "A") (Subscript (dot "model" "combined") (Num 0))
          [("synapse", NoneLit)];
        connect (dot "model" "B") (Subscript (dot "model" "combined") (Num 1))
          [("synapse", NoneLit)];
        product_def;
        connect (dot "model" "combined") (dot "model" "prod")
          [("function", Name "product")]];
     Return (Name "model")].

Definition code_bonus : list stmt :=
  [Product_def;
   Assign (Name "model")
     (Call (dot "nengo" "Network") [] [("label", Str "Multiplication")]);
   With (Name "model") None
     [Assign (Name "inputA")
        (Call (dot "nengo" "Node")
           [Call (Name "Piecewise") [inputA_literal] []] []);
      Assign (Name "inputB")
        (Call (dot "nengo" "Node")
           [Call (Name "Piecewise") [inputB_literal] []] []);
      Assign (Name "A") (ensemble_call 100 1 10);
      Assign (Name "B") (ensemble_call 100 1 10);
      Assign (Name "prod")
        (Call (Name "Product") [Num 100] [("input_magnitude", Num 10)]);
      connect (Name "inputA") (Name "A") [];
      connect (Name "inputB") (Name "B") [];
      connect (Name "A") (dot "prod" "A") [];
      connect (Name "B") (dot "prod" "B") [];
      Assign (Name "inputA_probe") (probe_call (Name "inputA") false);
      Assign (Name "inputB_probe") (probe_call (Name "inputB") false);
      Assign (Name "A_probe") (probe_call (Name "A") true);
      Assign (Name "B_probe") (probe_call (Name "B") true);
      Assign (Name "combined_probe") (probe_call (dot "prod" "combined") true);
      Assign (Name "prod_probe") (probe_call (dot "prod" "prod") true)]]
  ++ code_step5 ++ code_step6.

(** The cells, top to bottom. *)
Definition cells : list cell :=
  [markdown
    ["# Multiplication";
     EmptyString;
     "This example will show you how to multiply two values.";
     "The model architecture can be thought of as";
     "a combination of the combining demo and the squaring demo.";
     "Essentially, we project both inputs independently into a 2D space,";
     "and then decode a nonlinear transformation of that space";
     "(the product of the first and second vector elements)."];
   code code_imports;
   markdown
    ["## Step 1: Create the model";
     EmptyString;
     "The model has four ensembles:";
     "two input ensembles ('A' and 'B'),";
     "a 2D combined ensemble ('Combined'),";
     "and an output ensemble ('D')."];
   code code_step1;
   markdown
    ["## Step 2: Provide input to the model";
     EmptyString;
     "We will use two varying scalar values for the two input signals";
     "that drive activity in ensembles A and B."];
   code code_step2;
   markdown
    ["## Step 3: Connect the elements of the model"];
   code code_step3;
   markdown
    ["## Step 4: Probe the output";
     EmptyString;
     "Collect output data from each ensemble and input."];
   code code_step4;
   markdown
    ["## Step 5: Run the model"];
   code code_step5;
   markdown
    ["## Step 6: Plot the results";
     EmptyString;
     "To check the performance of the model,";
     "we can plot the input signals and decoded ensemble values."];
   code code_step6;
   markdown
    ["The input signals we chose make it obvious when things are working,";
     "as the inputs are zero often (so the product should be).";
     "When choosing encoders randomly around the circle (the default in Nengo),";
     "you may see more unwanted interactions between the inputs.";
     "To see this, comment the above code that sets the encoders";
     "to the corners of the cube (in Step 1 where it says";
     "`# Comment out the line below for 'normal' encoders`)."];
   markdown
    ["## Bonus step: Make a subnetwork";
     EmptyString;
     "If you find that you need to compute the product";
     "in several parts of your network,";
     "you can put all of the components necessary";
     "to compute the product";
     "together in a subnetwork.";
     "By making a function to construct this subnetwork,";
     "it becomes easy to make many such networks";
     "in a single model."];
   code code_bonus;
   markdown
    ["Alternatively, you can use Nengo's built in";
     "[`nengo.networks.Product` network](";
     "https://www.nengo.ai/nengo/networks.html#nengo.networks.Product).";
     "This network works with input of any dimensionality";
     "(e.g., to compute the dot product of two large vectors)";
     "and uses special optimizatons to make the product";
     "more accurate than this implementation."]].

(** The names some code cell creates and no code cell ever reads. *)
Definition never_read (document : list (list stmt)) : list string :=
  without (flat_map created document) (flat_map used document).

Definition is_code (c : cell) : bool :=
  match c with code _ => true | markdown _ => false end.

(** The code cells, in order. *)
Definition code_cells (document : list cell) : list (list stmt) :=
  flat_map (fun c => match c with code source => [source] | _ => [] end)
    document.

(** Every code cell stands right after a markdown cell. *)
Fixpoint interleaved (after_markdown : bool) (document : list cell) : bool :=
  match document with
  | [] => true
  | markdown _ :: rest => interleaved true rest
  | code _ :: rest => after_markdown && interleaved false rest
  end.

End Document.

(** * Properties *)

(** ** Piecewise signals *)

Section PiecewiseFacts.

Variable t : Q.

Lemma latest_breakpoint_app (l1 l2 : breakpoints) :
  forall best,
    latest_breakpoint t best (l1 ++ l2)
    = latest_breakpoint t (latest_breakpoint t best l1) l2.
Proof.
  induction l1 as [|[k v] l1 IH]; intros best; simpl; [reflexivity|].
  destruct (Qle_bool k t); [|apply IH].
  destruct best as [[k' v']|]; [|apply IH].
  destruct (Qle_bool k' k); apply IH.
Qed.

(** Breakpoints after [t] do not count. *)
Lemma latest_breakpoint_later (l : breakpoints) :
  forall best,
    (forall kv, In kv l -> (t < fst kv)%Q) ->
    latest_breakpoint t best l = best.
Proof.
  induction l as [|[k v] l IH]; intros best later; simpl; [reflexivity|].
  assert (Hk : Qle_bool k t = false).
  { destruct (Qle_bool k t) eqn:Hle; [|reflexivity].
    apply Qle_bool_iff in Hle.
    specialize (later (k, v) (or_introl eq_refl)). simpl in later.
    exfalso. apply (Qlt_not_le _ _ later Hle). }
  rewrite Hk. apply IH. intros kv Hin. apply later. right. exact Hin.
Qed.

(** The scan returns what it started with or one of the items. *)
Lemma latest_breakpoint_origin (l : breakpoints) :
  forall best,
    latest_breakpoint t best l = best
    \/ exists kv, In kv l /\ latest_breakpoint t best l = Some kv.
Proof.
  induction l as [|[k v] l IH]; intros best; simpl; [left; reflexivity|].
  assert (step : forall b,
    latest_breakpoint t b l = best \/
    (b = Some (k, v) \/ b = best) ->
    latest_breakpoint t b l = best
    \/ exists kv, ((k, v) = kv \/ In kv l) /\ latest_breakpoint t b l = Some kv).
  { intros b [Hb|Hb]; [left; exact Hb|].
    destruct (IH b) as [Hsame|[kv [Hin Hkv]]].
    - destruct Hb as [Hb|Hb]; subst b.
      + right. exists (k, v). split; [left; reflexivity|exact Hsame].
      + left. exact Hsame.
    - right. exists kv. split; [right; exact Hin|exact Hkv]. }
  destruct (Qle_bool k t).
  - destruct best as [[k' v']|].
    + destruct (Qle_bool k' k); apply step; right; [left|right]; reflexivity.
    + apply step. right. left. reflexivity.
  - apply step. right. right. reflexivity.
Qed.

(** A breakpoint at or before [t], with nothing later before it in the list
    and only breakpoints after [t] behind it, is the one that counts. *)
Lemma Piecewise_value_at (l1 l2 : breakpoints) (t1 v1 : Q) :
  (forall kv, In kv l1 -> (fst kv <= t1)%Q) ->
  (t1 <= t)%Q ->
  (forall kv, In kv l2 -> (t < fst kv)%Q) ->
  Piecewise_value (l1 ++ (t1, v1) :: l2) t = Some v1.
Proof.
  intros before at_t later. unfold Piecewise_value.
  rewrite latest_breakpoint_app. simpl.
  apply Qle_bool_iff in at_t. rewrite at_t.
  destruct (latest_breakpoint_origin l1 None) as [Hnone|[[k' v'] [Hin Hsome]]].
  - rewrite Hnone. rewrite latest_breakpoint_later by exact later. reflexivity.
  - rewrite Hsome.
    specialize (before _ Hin). simpl in before.
    apply Qle_bool_iff in before. rewrite before.
    rewrite latest_breakpoint_later by exact later. reflexivity.
Qed.

End PiecewiseFacts.

Lemma ascending_app (l1 l2 : breakpoints) :
  ascending (l1 ++ l2) = true ->
  ascending l2 = true
  /\ forall a b, In a l1 -> In b l2 -> (fst a < fst b)%Q.
Proof.
  induction l1 as [|[k v] l1 IH]; simpl; intros Hasc.
  - split; [exact Hasc|]. intros a b [].
  - apply andb_true_iff in Hasc. destruct Hasc as [Hall Hrest].
    destruct (IH Hrest) as [Hl2 Hlt]. split; [exact Hl2|].
    intros a b [Ha|Ha] Hb.
    + subst a. simpl.
      rewrite forallb_forall in Hall.
      specialize (Hall b (in_or_app _ _ _ (or_intror Hb))).
      apply negb_true_iff in Hall.
      apply Qnot_le_lt. intros Hle. apply Qle_bool_iff in Hle. congruence.
    + apply Hlt; assumption.
Qed.

(** Between two neighbouring breakpoints of an ascending list the signal
    holds the value of the earlier one. *)
Lemma Piecewise_value_between (data l1 l2 : breakpoints) (t1 v1 t2 v2 t : Q) :
  ascending data = true ->
  data = l1 ++ (t1, v1) :: (t2, v2) :: l2 ->
  (t1 <= t)%Q -> (t < t2)%Q ->
  Piecewise_value data t = Some v1.
Proof.
  intros Hasc -> at_t before_t2.
  destruct (ascending_app l1 _ Hasc) as [Htail Hl1].
  destruct (ascending_app [(t1, v1)] ((t2, v2) :: l2) Htail) as [Htail2 _].
  destruct (ascending_app [(t2, v2)] l2 Htail2) as [_ Hl2].
  apply Piecewise_value_at.
  - intros kv Hin. apply Qlt_le_weak.
    apply (Hl1 kv (t1, v1) Hin). left. reflexivity.
  - exact at_t.
  - intros kv [Hkv|Hin].
    + subst kv. exact before_t2.
    + apply Qlt_trans with t2; [exact before_t2|].
      apply (Hl2 (t2, v2) kv); [left; reflexivity|exact Hin].
Qed.

(** From the last breakpoint on, the signal holds its value. *)
Lemma Piecewise_value_last (data l1 : breakpoints) (t1 v1 t : Q) :
  ascending data = true ->
  data = l1 ++ [(t1, v1)] ->
  (t1 <= t)%Q ->
  Piecewise_value data t = Some v1.
Proof.
  intros Hasc -> at_t.
  destruct (ascending_app l1 _ Hasc) as [_ Hl1].
  apply Piecewise_value_at.
  - intros kv Hin. apply Qlt_le_weak.
    apply (Hl1 kv (t1, v1) Hin). left. reflexivity.
  - exact at_t.
  - intros kv [].
Qed.

(** ** What the recording library was handed *)

Lemma flat_model_completes :
  snd flat_run = Ok flat_names.
Proof. reflexivity. Qed.

Lemma inputA_recorded :
  node_signal flat_trace (ns_inputA flat_names)
  = Some [(0, 0); (2.5, 10); (4, -10)]%Q.
Proof. reflexivity. Qed.

Lemma inputB_recorded :
  node_signal flat_trace (ns_inputB flat_names)
  = Some [(0, 10); (1.5, 2); (3, 0); (4.5, 2)]%Q.
Proof. reflexivity. Qed.

Lemma correct_ans_recorded :
  process_data flat_trace (ns_correct_ans flat_names)
  = Some [(0, 0); (1.5, 0); (2.5, 20); (3, 0); (4, 0); (4.5, -20)]%Q.
Proof. reflexivity. Qed.

Lemma signals_recorded :
  signals notebook_trace
  = [[(0, 0); (2.5, 10); (4, -10)];
     [(0, 10); (1.5, 2); (3, 0); (4.5, 2)];
     [(0, 0); (1.5, 0); (2.5, 20); (3, 0); (4, 0); (4.5, -20)];
     [(0, 0); (2.5, 10); (4, -10)];
     [(0, 10); (1.5, 2); (3, 0); (4.5, 2)]]%Q.
Proof. reflexivity. Qed.

Lemma signals_ascending (data : breakpoints) :
  In data (signals notebook_trace) -> ascending data = true.
Proof.
  rewrite signals_recorded. simpl.
  intros [<-|[<-|[<-|[<-|[<-|[]]]]]]; reflexivity.
Qed.

(** C4: every piecewise signal the notebook builds ([inputA], [inputB],
    [correct_ans], and the two inputs built again in the last cell) is
    constant between consecutive breakpoints: at a time from one time offset
    up to, but not reaching, the next one, it has the value given for the
    earlier offset. *)
Theorem signals_constant_between_breakpoints
    (data l1 l2 : breakpoints) (t1 v1 t2 v2 t : Q) :
  In data (signals notebook_trace) ->
  data = l1 ++ (t1, v1) :: (t2, v2) :: l2 ->
  (t1 <= t)%Q -> (t < t2)%Q ->
  Piecewise_value data t = Some v1.
Proof.
  intros Hin. apply Piecewise_value_between. apply signals_ascending, Hin.
Qed.

Lemma signals_constant_between_breakpoints_witness :
  Piecewise_value [(0, 0); (1.5, 0); (2.5, 20); (3, 0); (4, 0); (4.5, -20)]%Q
    (2.75)%Q = Some 20%Q.
Proof.
  apply (signals_constant_between_breakpoints
           [(0, 0); (1.5, 0); (2.5, 20); (3, 0); (4, 0); (4.5, -20)]%Q
           [(0, 0); (1.5, 0)]%Q [(4, 0); (4.5, -20)]%Q
           2.5%Q 20%Q 3%Q 0%Q 2.75%Q).
  - lazy. right. right. left. reflexivity.
  - reflexivity.
  - unfold Qle. simpl. lia.
  - unfold Qlt. simpl. lia.
Defined.

Lemma Qle_bool_false (k t : Q) : (t < k)%Q -> Qle_bool k t = false.
Proof.
  intros Hlt. destruct (Qle_bool k t) eqn:Hle; [|reflexivity].
  apply Qle_bool_iff in Hle. exfalso. apply (Qlt_not_le _ _ Hlt Hle).
Qed.

(** Settles on which side of the breakpoint [k] the time [t] lies, from the
    bounds on [t] at hand. *)
Ltac side_of k t :=
  first
    [ rewrite (proj2 (Qle_bool_iff k t)) by lra
    | rewrite (Qle_bool_false k t) by lra ].

Ltac evaluate_signals t :=
  unfold inputA_value, inputB_value, correct_ans_value;
  rewrite ?inputA_recorded, ?inputB_recorded, ?correct_ans_recorded;
  unfold Piecewise_value;
  cbn [latest_breakpoint option_map snd];
  repeat match goal with
         | |- context [Qle_bool ?k t] => side_of k t
         end;
  cbn [latest_breakpoint option_map snd Qle_bool Qnum Qden Z.leb Z.mul
       Pos.mul Z.compare Pos.compare Pos.compare_cont].

(** From time 0 on, the reference signal is the product of the inputs. *)
Lemma reference_is_product (t : Q) :
  (0 <= t)%Q ->
  exists a b c,
    inputA_value t = Some a /\ inputB_value t = Some b
    /\ correct_ans_value t = Some c /\ (c == a * b)%Q.
Proof.
  intros Hlo.
  destruct (Qlt_le_dec t 1.5) as [H1|H1];
    [|destruct (Qlt_le_dec t 2.5) as [H2|H2];
      [|destruct (Qlt_le_dec t 3) as [H3|H3];
        [|destruct (Qlt_le_dec t 4) as [H4|H4];
          [|destruct (Qlt_le_dec t 4.5) as [H5|H5]]]]];
    evaluate_signals t;
    do 3 eexists; repeat split; reflexivity.
Qed.

(** C1: at every time [t] with [0 <= t < 5], the reference signal
    [correct_ans = Piecewise({0: 0, 1.5: 0, 2.5: 20, 3: 0, 4: 0, 4.5: -20})]
    has the value of [Piecewise({0: 0, 2.5: 10, 4: -10})] at [t] times the
    value of [Piecewise({0: 10, 1.5: 2, 3: 0, 4.5: 2})] at [t], each signal
    taking the value of its latest breakpoint at or before [t]. *)
Theorem correct_ans_is_product_of_inputs (t : Q) :
  (0 <= t)%Q -> (t < 5)%Q ->
  inputA_value t = Piecewise_value [(0, 0); (2.5, 10); (4, -10)]%Q t
  /\ inputB_value t
     = Piecewise_value [(0, 10); (1.5, 2); (3, 0); (4.5, 2)]%Q t
  /\ correct_ans_value t
     = Piecewise_value
         [(0, 0); (1.5, 0); (2.5, 20); (3, 0); (4, 0); (4.5, -20)]%Q t
  /\ exists a b c,
       inputA_value t = Some a /\ inputB_value t = Some b
       /\ correct_ans_value t = Some c /\ (c == a * b)%Q.
Proof.
  intros Hlo _.
  split; [unfold inputA_value; rewrite inputA_recorded; reflexivity|].
  split; [unfold inputB_value; rewrite inputB_recorded; reflexivity|].
  split; [unfold correct_ans_value; rewrite correct_ans_recorded; reflexivity|].
  apply reference_is_product, Hlo.
Qed.

Lemma correct_ans_is_product_of_inputs_witness :
  exists a b c,
    inputA_value 2.75 = Some a /\ inputB_value 2.75 = Some b
    /\ correct_ans_value 2.75 = Some c /\ (c == a * b)%Q.
Proof.
  apply (correct_ans_is_product_of_inputs 2.75).
  - unfold Qle. simpl. lia.
  - unfold Qlt. simpl. lia.
Defined.

(** The inputs are silent before time 0, their first breakpoint. *)
Lemma inputA_starts_at_0 (t a : Q) : inputA_value t = Some a -> (0 <= t)%Q.
Proof.
  intros Ha. destruct (Qlt_le_dec t 0) as [Hneg|Hpos]; [exfalso|exact Hpos].
  revert Ha. evaluate_signals t. discriminate.
Qed.

Example signals_at_2_75 :
  inputA_value 2.75 = Some 10%Q /\ inputB_value 2.75 = Some 2%Q
  /\ correct_ans_value 2.75 = Some 20%Q.
Proof. lazy. repeat split. Qed.

Example signals_at_4_75 :
  inputA_value 4.75 = Some (-10)%Q /\ inputB_value 4.75 = Some 2%Q
  /\ correct_ans_value 4.75 = Some (-20)%Q.
Proof. lazy. repeat split. Qed.

(** ** The connection function *)

Lemma Qmult_swap (a b : Q) : (a * b)%Q = (b * a)%Q.
Proof.
  destruct a as [an ad], b as [bn bd]. unfold Qmult. simpl.
  rewrite (Z.mul_comm an bn), (Pos.mul_comm ad bd). reflexivity.
Qed.

Lemma product_of_pair (a b : Q) : product [a; b] = Some (a * b)%Q.
Proof. reflexivity. Qed.

Lemma Product_product_of_pair (a b : Q) :
  Product_product [a; b] = Some (a * b)%Q.
Proof. reflexivity. Qed.

(** C9: [product] is symmetric in the two components of its argument,
    [product([a, b]) = product([b, a])] for all numbers [a] and [b], in the
    Step-3 cell and in the subnetwork alike; so the function decoded from
    two signals is the same with the signals exchanged. *)
Theorem product_symmetric (a b : Q) :
  product [a; b] = product [b; a]
  /\ Product_product [a; b] = Product_product [b; a]
  /\ forall (signal_a signal_b : Q -> Q) (t : Q),
       product [signal_a t; signal_b t] = product [signal_b t; signal_a t].
Proof.
  unfold product, Product_product. simpl.
  rewrite (Qmult_swap a b). repeat split.
  intros signal_a signal_b t. rewrite (Qmult_swap (signal_a t)). reflexivity.
Qed.

Lemma product_zero (a b : Q) :
  (a == 0)%Q \/ (b == 0)%Q ->
  exists p, product [a; b] = Some p /\ (p == 0)%Q.
Proof.
  intros Hzero. exists (a * b)%Q. split; [reflexivity|].
  destruct Hzero as [H|H]; rewrite H; ring.
Qed.

(** C10: [product] annihilates zero, [product([a, 0]) = 0] and
    [product([0, a]) = 0] for every number [a]; so at every time at which
    one of the two piecewise inputs holds 0, the product of the values the
    inputs hold is 0, and so is the reference signal. Equality of numbers
    is equality of their values. *)
Theorem product_annihilates_zero :
  (forall a : Q,
     (exists p, product [a; 0%Q] = Some p /\ (p == 0)%Q)
     /\ (exists p, product [0%Q; a] = Some p /\ (p == 0)%Q))
  /\ forall (t a b : Q),
       inputA_value t = Some a -> inputB_value t = Some b ->
       (a == 0)%Q \/ (b == 0)%Q ->
       (exists p, product [a; b] = Some p /\ (p == 0)%Q)
       /\ (exists c, correct_ans_value t = Some c /\ (c == 0)%Q).
Proof.
  split.
  - intros a. split; apply product_zero; [right|left]; reflexivity.
  - intros t a b Ha Hb Hzero. split; [apply product_zero, Hzero|].
    destruct (reference_is_product t (inputA_starts_at_0 t a Ha))
      as (a' & b' & c & Ha' & Hb' & Hc & Hmul).
    rewrite Ha in Ha'. rewrite Hb in Hb'.
    injection Ha' as <-. injection Hb' as <-.
    exists c. split; [exact Hc|].
    rewrite Hmul. destruct Hzero as [H|H]; rewrite H; ring.
Qed.

Lemma product_annihilates_zero_witness :
  (exists p, product [0%Q; 10%Q] = Some p /\ (p == 0)%Q)
  /\ (exists c, correct_ans_value 1 = Some c /\ (c == 0)%Q).
Proof.
  apply (proj2 product_annihilates_zero 1%Q 0%Q 10%Q).
  - lazy. reflexivity.
  - lazy. reflexivity.
  - left. reflexivity.
Defined.

(** ** The declared model *)

(** C2: the model declares exactly four neuron populations: [A] with 100
    neurons, 1 dimension, radius 10; [B] with 100 neurons, 1 dimension,
    radius 10; [combined] with 220 neurons, 2 dimensions, radius 15; [prod]
    with 100 neurons, 1 dimension, radius 20. *)
Theorem model_declares_four_ensembles :
  ensembles flat_trace
  = [(ns_A flat_names, nengo_Ensemble 100 1 10 None);
     (ns_B flat_names, nengo_Ensemble 100 1 10 None);
     (ns_combined flat_names, nengo_Ensemble 220 2 15 None);
     (ns_prod flat_names, nengo_Ensemble 100 1 20 None)]
  /\ NoDup (map fst (ensembles flat_trace))
  /\ List.length (ensembles flat_trace) = 4%nat.
Proof.
  assert (Hdecl : ensembles flat_trace
    = [(8%nat, nengo_Ensemble 100 1 10 None);
       (9%nat, nengo_Ensemble 100 1 10 None);
       (10%nat, nengo_Ensemble 220 2 15 None);
       (11%nat, nengo_Ensemble 100 1 20 None)]) by reflexivity.
  split; [exact Hdecl|]. rewrite Hdecl. split; [|reflexivity].
  simpl. repeat constructor; simpl; intuition discriminate.
Qed.

(** C3: of the five connections of the model ([inputA] to [A], [inputB] to
    [B], [A] to [combined[0]], [B] to [combined[1]], [combined] to [prod])
    exactly one carries a function, the one from [combined] to [prod], and
    that function takes a 2-vector [x] to [x[0] * x[1]]. *)
Theorem one_connection_computes_product :
  exists combined_0 combined_1 : nat,
    map snd (connections flat_trace)
    = [nengo_Connection (ns_inputA flat_names) (ns_A flat_names) None
         synapse_default;
       nengo_Connection (ns_inputB flat_names) (ns_B flat_names) None
         synapse_default;
       nengo_Connection (ns_A flat_names) combined_0 None synapse_default;
       nengo_Connection (ns_B flat_names) combined_1 None synapse_default;
       nengo_Connection (ns_combined flat_names) (ns_prod flat_names)
         (Some product) synapse_default]
    /\ made_by flat_trace combined_0
       = Some (getitem (ns_combined flat_names) 0)
    /\ made_by flat_trace combined_1
       = Some (getitem (ns_combined flat_names) 1)
    /\ filter has_function (map snd (connections flat_trace))
       = [nengo_Connection (ns_combined flat_names) (ns_prod flat_names)
            (Some product) synapse_default]
    /\ forall x0 x1 : Q, product [x0; x1] = Some (x0 * x1)%Q.
Proof.
  exists 25%nat, 27%nat.
  repeat split.
Qed.

(** ** The subnetwork *)

Lemma pow2_in_range (m : number) :
  no_overflow m -> number_pow2 m = Some (number_square m).
Proof.
  destruct m as [z|x]; cbn [no_overflow number_pow2]; intros Hm;
    [reflexivity|].
  destruct (Rlt_dec (Rabs x) (2 ^ 512)) as [_|Hout]; [reflexivity|].
  contradiction.
Qed.

Lemma pow2_out_of_range (m : number) :
  ~ no_overflow m -> number_pow2 m = None.
Proof.
  destruct m as [z|x]; cbn [no_overflow number_pow2]; intros Hm;
    [exfalso; apply Hm; exact I|].
  destruct (Rlt_dec (Rabs x) (2 ^ 512)) as [Hin|_]; [contradiction|].
  reflexivity.
Qed.

Lemma no_overflow_dec (m : number) : {no_overflow m} + {~ no_overflow m}.
Proof.
  destruct m as [z|x]; cbn [no_overflow]; [left; exact I|apply Rlt_dec].
Qed.

Lemma sum_of_squares (m : number) :
  real_of (number_add (number_square m) (number_square m))
  = (real_of m ^ 2 + real_of m ^ 2)%R.
Proof.
  destruct m as [z|x]; cbn [real_of number_add number_square];
    [|reflexivity].
  rewrite plus_IZR, (pow_IZR z 2). reflexivity.
Qed.

Lemma twice (m : number) : real_of (number_mul m 2) = (2 * real_of m)%R.
Proof.
  destruct m as [z|x]; cbn [real_of number_mul];
    [rewrite mult_IZR|]; apply Rmult_comm.
Qed.

Lemma two_to_the_512_overflows : ~ no_overflow (pyfloat (2 ^ 512)).
Proof.
  cbn [no_overflow]. rewrite Rabs_right.
  - apply Rlt_irrefl.
  - apply Rle_ge, pow_le. Lra.lra.
Qed.

(** What [Product] asks of the recording library, newest call first, when
    the squares are in range. *)
Lemma Product_recorded {E : Type} (err : E) (n : Z) (m : number)
    (calls : trace) :
  no_overflow m ->
  Product recorder err n m calls
  = (let model := List.length calls in
     [ctx_exit model false;
      nengo_Connection (7 + model)%nat (9 + model)%nat (Some Product_product)
        synapse_default;
      getattr model "prod";
      getattr model "combined";
      nengo_Connection (4 + model)%nat (17 + model)%nat None synapse_none;
      getitem (7 + model)%nat 1;
      getattr model "combined";
      getattr model "B";
      nengo_Connection (2 + model)%nat (13 + model)%nat None synapse_none;
      getitem (7 + model)%nat 0;
      getattr model "combined";
      getattr model "A";
      setattr model "prod" (9 + model)%nat;
      nengo_Ensemble n 1 (real_of (number_mul m 2)) None;
      setattr model "combined" (7 + model)%nat;
      nengo_Ensemble (n * 2) 2
        (sqrt (real_of (number_add (number_square m) (number_square m))))
        (Some (6 + model)%nat);
      Choice corners;
      setattr model "B" (4 + model)%nat;
      nengo_Node None (Some 1);
      setattr model "A" (2 + model)%nat;
      nengo_Node None (Some 1);
      ctx_enter model;
      nengo_Network "Product"] ++ calls,
     Ok (List.length calls)).
Proof.
  intros Hm.
  unfold Product, power2, with_, bind, ret, recorder.
  rewrite (pow2_in_range m Hm).
  cbn [call np_sqrt fst snd recorder_answer attribute List.length].
  rewrite ?Nat.eqb_refl.
  cbn [andb String.eqb Ascii.eqb Bool.eqb fst snd].
  reflexivity.
Qed.

(** What [Product] asks of the recording library, newest call first, when
    the square is out of range: the network and the two nodes, and the
    block is left. *)
Lemma Product_overflow_recorded {E : Type} (err : E) (n : Z) (m : number)
    (calls : trace) :
  ~ no_overflow m ->
  Product recorder err n m calls
  = (let model := List.length calls in
     [ctx_exit model true;
      setattr model "B" (4 + model)%nat;
      nengo_Node None (Some 1);
      setattr model "A" (2 + model)%nat;
      nengo_Node None (Some 1);
      ctx_enter model;
      nengo_Network "Product"] ++ calls,
     Raise err).
Proof.
  intros Hm.
  unfold Product, power2, raise, with_, bind, ret, recorder.
  rewrite (pow2_out_of_range m Hm).
  cbn [call np_sqrt fst snd recorder_answer attribute List.length].
  reflexivity.
Qed.

Lemma sqrt_200 : sqrt 200 = (10 * sqrt 2)%R.
Proof.
  replace 200%R with ((10 * 10) * 2)%R by Lra.lra.
  rewrite sqrt_mult by Lra.lra. rewrite sqrt_square by Lra.lra. reflexivity.
Qed.

Lemma ten_sqrt_2_is_not_15 : (10 * sqrt 2)%R <> 15%R.
Proof.
  intros Heq.
  assert (Hsq : ((10 * sqrt 2) * (10 * sqrt 2))%R = (15 * 15)%R)
    by (rewrite Heq; reflexivity).
  replace ((10 * sqrt 2) * (10 * sqrt 2))%R
    with (100 * (sqrt 2 * sqrt 2))%R in Hsq by ring.
  rewrite sqrt_sqrt in Hsq by Lra.lra. Lra.lra.
Qed.




(** ** Exceptions *)

Section Propagation.

Context {St E Obj : Type}.
Variable L : Library St E Obj.

Lemma propagates_ret {A : Type} (a : A) :
  propagates (ret (St := St * list E) (E := E) a).
Proof. intros s raised. reflexivity. Qed.

Lemma propagates_logging {A : Type} (c : Py St E A) :
  propagates (logging c).
Proof.
  intros s raised. unfold logging. simpl.
  destruct (c s) as [s' [a|e]]; [reflexivity|].
  exists []. reflexivity.
Qed.

Lemma propagates_call (c : api Obj) : propagates (call (logged L) c).
Proof. apply propagates_logging. Qed.

Lemma propagates_np_sqrt (x : R) : propagates (np_sqrt (logged L) x).
Proof. apply propagates_logging. Qed.

Lemma propagates_bind {A B : Type}
    (c : Py (St * list E) E A) (k : A -> Py (St * list E) E B) :
  propagates c -> (forall a, propagates (k a)) -> propagates (bind c k).
Proof.
  intros Hc Hk s raised. unfold bind.
  specialize (Hc s raised).
  destruct (c (s, raised)) as [[s1 raised1] [a|e]].
  - subst raised1. apply Hk.
  - exact Hc.
Qed.

(** A [with] block hands on what its body raises, or what leaving the
    block raises on top of it. *)
Lemma propagates_with {A : Type} (mgr : Obj)
    (body : Obj -> Py (St * list E) E A) :
  (forall v, propagates (body v)) -> propagates (with_ (logged L) mgr body).
Proof.
  intros Hbody s raised. unfold with_.
  pose proof (propagates_call (ctx_enter mgr) s raised) as Henter.
  destruct (call (logged L) (ctx_enter mgr) (s, raised))
    as [[s1 raised1] [v|e]]; [subst raised1|exact Henter].
  specialize (Hbody v s1 raised).
  destruct (body v (s1, raised)) as [[s2 raised2] [a|e]].
  - subst raised2.
    pose proof (propagates_call (ctx_exit mgr false) s2 raised) as Hexit.
    destruct (call (logged L) (ctx_exit mgr false) (s2, raised))
      as [[s3 raised3] [w|e']]; exact Hexit.
  - destruct Hbody as [more ->].
    pose proof (propagates_call (ctx_exit mgr true) s2 (e :: more ++ raised))
      as Hexit.
    destruct (call (logged L) (ctx_exit mgr true) (s2, e :: more ++ raised))
      as [[s3 raised3] [w|e']].
    + subst raised3. exists more. reflexivity.
    + destruct Hexit as [more' ->].
      exists (more' ++ e :: more). rewrite <- app_assoc. reflexivity.
Qed.

End Propagation.

Section OwnExceptions.

Context {St E Obj : Type}.
Variable L : Library St E Obj.
Variable OverflowError : E.

Lemma propagates_power2 (m : number) :
  no_overflow m ->
  propagates (power2 (St := St * list E) OverflowError m).
Proof.
  intros Hm. unfold power2. rewrite (pow2_in_range m Hm).
  apply propagates_ret.
Qed.

(** Code that only hands on what the library raises does so all the more
    when its own exception is allowed for. *)
Lemma propagates_allows_own {A : Type} (c : Py (St * list E) E A) :
  propagates c -> propagates_or_raises OverflowError c.
Proof.
  intros Hc s raised. specialize (Hc s raised).
  destruct (c (s, raised)) as [[s' raised'] [a|e]]; [exact Hc|].
  left. exact Hc.
Qed.

Lemma power2_raises_its_own (m : number) :
  propagates_or_raises OverflowError
    (power2 (St := St * list E) OverflowError m).
Proof.
  destruct (no_overflow_dec m) as [Hm|Hm].
  - apply propagates_allows_own, propagates_power2, Hm.
  - intros s raised. unfold power2. rewrite (pow2_out_of_range m Hm).
    right. split; reflexivity.
Qed.

Lemma own_bind {A B : Type}
    (c : Py (St * list E) E A) (k : A -> Py (St * list E) E B) :
  propagates_or_raises OverflowError c ->
  (forall a, propagates_or_raises OverflowError (k a)) ->
  propagates_or_raises OverflowError (bind c k).
Proof.
  intros Hc Hk s raised. unfold bind.
  specialize (Hc s raised).
  destruct (c (s, raised)) as [[s1 raised1] [a|e]].
  - subst raised1. apply Hk.
  - exact Hc.
Qed.

(** A [with] block hands on the exception of its body, the library's or
    the notebook's own, unless leaving the block raises. *)
Lemma own_with {A : Type} (mgr : Obj)
    (body : Obj -> Py (St * list E) E A) :
  (forall v, propagates_or_raises OverflowError (body v)) ->
  propagates_or_raises OverflowError (with_ (logged L) mgr body).
Proof.
  intros Hbody s raised. unfold with_.
  pose proof (propagates_call L (ctx_enter mgr) s raised) as Henter.
  destruct (call (logged L) (ctx_enter mgr) (s, raised))
    as [[s1 raised1] [v|e]]; [subst raised1|left; exact Henter].
  specialize (Hbody v s1 raised).
  destruct (body v (s1, raised)) as [[s2 raised2] [a|e]].
  - subst raised2.
    pose proof (propagates_call L (ctx_exit mgr false) s2 raised) as Hexit.
    destruct (call (logged L) (ctx_exit mgr false) (s2, raised))
      as [[s3 raised3] [w|e']]; [exact Hexit|left; exact Hexit].
  - pose proof (propagates_call L (ctx_exit mgr true) s2 raised2) as Hexit.
    destruct (call (logged L) (ctx_exit mgr true) (s2, raised2))
      as [[s3 raised3] [w|e']].
    + subst raised3. exact Hbody.
    + left. destruct Hexit as [more' ->].
      destruct Hbody as [[more ->]|[_ ->]].
      * exists (more' ++ e :: more). rewrite <- app_assoc. reflexivity.
      * exists more'. reflexivity.
Qed.

End OwnExceptions.

(** Walks through a cell statement by statement. *)
Ltac statement_by_statement :=
  repeat first
    [ apply propagates_ret
    | apply propagates_call
    | apply propagates_np_sqrt
    | apply propagates_power2; assumption
    | apply propagates_with; intros
    | apply propagates_bind; [|intros]
    | match goal with
      | |- propagates (let '(_, _) := ?x in _) => destruct x
      end ].

Ltac statement_by_statement_or_own :=
  repeat first
    [ apply power2_raises_its_own
    | apply propagates_allows_own;
      first [ apply propagates_ret | apply propagates_call
            | apply propagates_np_sqrt ]
    | apply own_with; intros
    | apply own_bind; [|intros] ].

Section PropagationCells.

Context {St E Obj : Type}.
Variable L : Library St E Obj.
Variable OverflowError : E.

Lemma cell_imports_propagates : propagates (cell_imports (logged L)).
Proof. unfold cell_imports. statement_by_statement. Qed.

Lemma cell_step1_propagates : propagates (cell_step1 (logged L)).
Proof. unfold cell_step1. statement_by_statement. Qed.

Lemma cell_step2_propagates (model : Obj) :
  propagates (cell_step2 (logged L) model).
Proof. unfold cell_step2. statement_by_statement. Qed.

Lemma cell_step3_propagates (model inputA inputB A B combined prod : Obj) :
  propagates (cell_step3 (logged L) model inputA inputB A B combined prod).
Proof. unfold cell_step3. statement_by_statement. Qed.

Lemma cell_step4_propagates (model inputA inputB A B combined prod : Obj) :
  propagates (cell_step4 (logged L) model inputA inputB A B combined prod).
Proof. unfold cell_step4. statement_by_statement. Qed.

Lemma cell_step5_propagates (model : Obj) :
  propagates (cell_step5 (logged L) model).
Proof. unfold cell_step5. statement_by_statement. Qed.

Lemma cell_step6_propagates (sim A_probe B_probe prod_probe correct_ans : Obj) :
  propagates
    (cell_step6 (logged L) sim A_probe B_probe prod_probe correct_ans).
Proof. unfold cell_step6. statement_by_statement. Qed.

Lemma Product_propagates (n : Z) (m : number) :
  no_overflow m -> propagates (Product (logged L) OverflowError n m).
Proof. intros Hm. unfold Product. statement_by_statement. Qed.

Lemma Product_propagates_or_raises (n : Z) (m : number) :
  propagates_or_raises OverflowError (Product (logged L) OverflowError n m).
Proof. unfold Product. statement_by_statement_or_own. Qed.

Lemma cell_bonus_propagates (correct_ans : Obj) :
  propagates (cell_bonus (logged L) OverflowError correct_ans).
Proof.
  unfold cell_bonus.
  repeat first
    [ apply Product_propagates; exact I
    | apply cell_step5_propagates
    | apply cell_step6_propagates
    | progress statement_by_statement ].
Qed.

Lemma flat_model_propagates : propagates (flat_model (logged L)).
Proof.
  unfold flat_model.
  repeat first
    [ apply cell_imports_propagates
    | apply cell_step1_propagates
    | apply cell_step2_propagates
    | apply cell_step3_propagates
    | apply cell_step4_propagates
    | apply cell_step5_propagates
    | apply cell_step6_propagates
    | progress statement_by_statement ].
Qed.

End PropagationCells.

(** C7: the notebook catches, transforms and recovers from nothing. Against
    any library whatever, in each code cell and in the notebook run top to
    bottom, a run that completes has seen the library raise nothing, and a
    run that fails raises the very exception the library raised last; no
    cell raises an exception of its own. [Product] does the same on every
    [input_magnitude] whose square is in range, which covers the call the
    notebook makes; on a float of magnitude [2 ** 512] or more its own
    [input_magnitude**2] raises [OverflowError], and that exception is not
    caught either: a failing run of [Product] raises the library's latest
    exception or, with the library silent, that [OverflowError]. *)
Theorem library_errors_reach_the_caller
    {St E Obj : Type} (L : Library St E Obj) (OverflowError : E) :
  propagates (cell_imports (logged L))
  /\ propagates (cell_step1 (logged L))
  /\ (forall model, propagates (cell_step2 (logged L) model))
  /\ (forall model inputA inputB A B combined prod,
        propagates
          (cell_step3 (logged L) model inputA inputB A B combined prod))
  /\ (forall model inputA inputB A B combined prod,
        propagates
          (cell_step4 (logged L) model inputA inputB A B combined prod))
  /\ (forall model, propagates (cell_step5 (logged L) model))
  /\ (forall sim A_probe B_probe prod_probe correct_ans,
        propagates
          (cell_step6 (logged L) sim A_probe B_probe prod_probe correct_ans))
  /\ (forall n m,
        no_overflow m -> propagates (Product (logged L) OverflowError n m))
  /\ (forall n m,
        propagates_or_raises OverflowError
          (Product (logged L) OverflowError n m))
  /\ (forall correct_ans,
        propagates (cell_bonus (logged L) OverflowError correct_ans))
  /\ propagates (notebook (logged L) OverflowError)
  /\ forall s : St,
       match notebook (logged L) OverflowError (s, []) with
       | ((_, raised), Ok _) => raised = []
       | ((_, raised), Raise e) => hd_error raised = Some e
       end.
Proof.
  assert (Hall : propagates (notebook (logged L) OverflowError)).
  { unfold notebook. apply propagates_bind.
    - apply flat_model_propagates.
    - intros ns. apply cell_bonus_propagates. }
  repeat split;
    try solve [ exact Hall
              | apply cell_imports_propagates
              | apply cell_step1_propagates
              | intros; apply cell_step2_propagates
              | intros; apply cell_step3_propagates
              | intros; apply cell_step4_propagates
              | intros; apply cell_step5_propagates
              | intros; apply cell_step6_propagates
              | intros; apply Product_propagates; assumption
              | intros; apply Product_propagates_or_raises
              | intros; apply cell_bonus_propagates ].
  intros s. specialize (Hall s []).
  destruct (notebook (logged L) OverflowError (s, [])) as [[s' raised] [a|e]].
  - exact Hall.
  - destruct Hall as [more ->]. reflexivity.
Qed.

Lemma library_errors_reach_the_caller_witness :
  propagates (Product (logged stalling) "OverflowError" 100 (pyint 10)).
Proof.
  destruct (library_errors_reach_the_caller stalling "OverflowError")
    as (_ & _ & _ & _ & _ & _ & _ & Hproduct & _).
  apply Hproduct. exact I.
Defined.

(** When running the simulator fails, Step 5 fails with that exception and
    so does the notebook; nothing after it runs. *)
Example simulation_error_surfaces :
  notebook (logged stalling) "OverflowError" (tt, [])
  = ((tt, ["SimulationError"]), Raise "SimulationError")
  /\ cell_step5 (logged stalling) tt (tt, [])
     = ((tt, ["SimulationError"]), Raise "SimulationError").
Proof. split; reflexivity. Qed.

(** On a float out of range [Product] raises its own exception, with the
    library silent. *)
Example overflow_error_surfaces :
  Product (logged stalling) "OverflowError" 100 (pyfloat (2 ^ 512)) (tt, [])
  = ((tt, []), Raise "OverflowError").
Proof.
  unfold Product, power2, raise, with_, bind, ret.
  rewrite (pow2_out_of_range _ two_to_the_512_overflows).
  reflexivity.
Qed.

(** ** The document *)

Lemma document_shape :
  List.length Document.cells = 18%nat
  /\ List.length (Document.code_cells Document.cells) = 8%nat
  /\ List.length (filter (fun c => negb (Document.is_code c)) Document.cells)
     = 10%nat
  /\ Document.interleaved false Document.cells = true.
Proof. repeat split. Qed.

(** C5, as the spec has it, fails: the code cells are not at most six. *)
Lemma more_than_six_code_cells :
  ~ (Document.interleaved false Document.cells = true
     /\ (4 <= List.length (Document.code_cells Document.cells) <= 6)%nat).
Proof.
  destruct document_shape as (_ & Hcode & _). rewrite Hcode. lia.
Qed.

(** C5, amended: the notebook consists of markdown cells interleaved with
    exactly eight sequential code cells; there are ten markdown cells, and
    every code cell comes right after a markdown cell. *)
Theorem eight_code_cells_interleaved :
  Document.interleaved false Document.cells = true
  /\ List.length (Document.code_cells Document.cells) = 8%nat
  /\ List.length (filter (fun c => negb (Document.is_code c)) Document.cells)
     = 10%nat
  /\ Document.code_cells Document.cells
     = [Document.code_imports; Document.code_step1; Document.code_step2;
        Document.code_step3; Document.code_step4; Document.code_step5;
        Document.code_step6; Document.code_bonus].
Proof. repeat split. Qed.

Lemma names_of_the_cells :
  map (fun source => (Document.created source,
                      nodup string_dec (Document.needs source)))
    (Document.code_cells Document.cells)
  = [(["plt"; "np"; "nengo"; "Choice"; "Piecewise"], []);
     (["model"; "A"; "B"; "combined"; "prod"], ["nengo"; "Choice"]);
     (["inputA"; "inputB"; "correct_ans"], ["model"; "nengo"; "Piecewise"]);
     (["product"],
      ["model"; "inputA"; "inputB"; "A"; "B"; "nengo"; "combined"; "prod"]);
     (["inputA_probe"; "inputB_probe"; "A_probe"; "B_probe";
       "combined_probe"; "prod_probe"],
      ["model"; "inputA"; "inputB"; "A"; "B"; "combined"; "nengo"; "prod"]);
     (["sim"], ["nengo"; "model"]);
     ([], ["A_probe"; "B_probe"; "prod_probe"; "correct_ans"; "sim"; "plt"]);
     (["Product"; "model"; "inputA"; "inputB"; "A"; "B"; "prod";
       "inputA_probe"; "inputB_probe"; "A_probe"; "B_probe";
       "combined_probe"; "prod_probe"; "sim"],
      ["np"; "Choice"; "Piecewise"; "nengo"; "correct_ans"; "plt"])].
Proof. vm_compute. reflexivity. Qed.

(** C6, as the spec has it, fails: the plotting cell of Step 6 uses
    [correct_ans], which it does not create and which the cell before it,
    Step 5, does not create either; it comes from Step 2. *)
Lemma plot_cell_reaches_back_to_step2 :
  ~ (forall (N : nat) (previous current : list Document.stmt) (x : string),
       nth_error (Document.code_cells Document.cells) N = Some previous ->
       nth_error (Document.code_cells Document.cells) (S N) = Some current ->
       In x (Document.needs current) ->
       In x (Document.created previous)).
Proof.
  intros Hclaim.
  specialize (Hclaim 5%nat Document.code_step5 Document.code_step6
                "correct_ans" eq_refl eq_refl).
  vm_compute in Hclaim.
  destruct Hclaim as [Hsim|[]].
  - do 15 right. left. reflexivity.
  - discriminate Hsim.
Qed.

Ltac pick_name := solve [repeat first [left; reflexivity | right]].

Ltac created_in M :=
  exists M; eexists;
  split; [lia|split; [reflexivity|vm_compute; pick_name]].

Ltac created_earlier :=
  first [ created_in 0%nat | created_in 1%nat | created_in 2%nat
        | created_in 3%nat | created_in 4%nat | created_in 5%nat
        | created_in 6%nat ].

(** C6, amended: every name a code cell uses but does not itself create was
    created in an earlier code cell, not always the one right before it. *)
Theorem names_come_from_earlier_cells
    (N : nat) (current : list Document.stmt) (x : string) :
  nth_error (Document.code_cells Document.cells) N = Some current ->
  In x (Document.needs current) ->
  exists (M : nat) (earlier : list Document.stmt),
    (M < N)%nat
    /\ nth_error (Document.code_cells Document.cells) M = Some earlier
    /\ In x (Document.created earlier).
Proof.
  intros Hcell Hneeds.
  do 8 (destruct N as [|N];
        [ injection Hcell as <-; vm_compute in Hneeds;
          repeat (destruct Hneeds as [<-|Hneeds]; [created_earlier|]);
          destruct Hneeds
        | ]).
  destruct N; discriminate Hcell.
Qed.

Lemma names_come_from_earlier_cells_witness :
  exists (M : nat) (earlier : list Document.stmt),
    (M < 6)%nat
    /\ nth_error (Document.code_cells Document.cells) M = Some earlier
    /\ In "correct_ans" (Document.created earlier).
Proof.
  apply (names_come_from_earlier_cells 6 Document.code_step6 "correct_ans").
  - reflexivity.
  - vm_compute. do 15 right. left. reflexivity.
Defined.

(** ** Blocks and failures *)

Section Discipline.

Context {St E Obj : Type}.
Variable L : Library St E Obj.

Lemma bracketed_app (l1 l2 : list (event Obj)) :
  bracketed l1 -> bracketed l2 -> bracketed (l1 ++ l2).
Proof.
  intros H1 H2. induction H1 as [|ev rest Hev _ IH|mgr r ok inner rest Hin _ _ IH].
  - exact H2.
  - simpl. apply bracketed_call; assumption.
  - simpl. rewrite <- app_assoc. simpl.
    apply bracketed_block; assumption.
Qed.

Lemma bracketed_all_plain (l : list (event Obj)) :
  forallb (fun ev => negb (opens_or_closes ev)) l = true -> bracketed l.
Proof.
  induction l as [|ev l IH]; simpl; intros H; [constructor|].
  apply andb_true_iff in H. destruct H as [Hev Hl].
  apply bracketed_call; [apply negb_true_iff, Hev|apply IH, Hl].
Qed.

Lemma stops_after_successes (l1 l2 : list (event Obj)) :
  forallb succeeded l1 = true ->
  only_leaving_after_failure (l1 ++ l2) = only_leaving_after_failure l2.
Proof.
  induction l1 as [|ev l1 IH]; simpl; intros H; [reflexivity|].
  apply andb_true_iff in H. destruct H as [Hev Hl]. rewrite Hev. apply IH, Hl.
Qed.

Lemma stops_then_leaves (l : list (event Obj)) (ev : event Obj) :
  forallb succeeded l = false ->
  only_leaving_after_failure l = true ->
  leaving ev = true ->
  only_leaving_after_failure (l ++ [ev]) = true.
Proof.
  induction l as [|e l IH]; simpl; intros Hfail Hstops Hev; [discriminate|].
  destruct (succeeded e); simpl in Hfail.
  - apply IH; assumption.
  - rewrite forallb_app, Hstops. simpl. rewrite Hev. reflexivity.
Qed.

Lemma failure_stays (l1 l2 : list (event Obj)) :
  forallb succeeded l2 = false -> forallb succeeded (l1 ++ l2) = false.
Proof.
  intros H. rewrite forallb_app, H. apply andb_false_r.
Qed.

Lemma disciplined_ret {A : Type} (a : A) :
  disciplined (ret (St := St * list (event Obj)) (E := E) a).
Proof.
  intros s log. exists []. simpl. rewrite app_nil_r.
  repeat split. constructor.
Qed.

Lemma disciplined_auditing {A : Type} (entry : bool -> event Obj)
    (c : Py St E A) :
  (forall ok, opens_or_closes (entry ok) = false) ->
  (forall ok, succeeded (entry ok) = ok) ->
  disciplined (auditing entry c).
Proof.
  intros Hplain Hok s log. unfold auditing. simpl.
  destruct (c s) as [s' [a|e]]; simpl.
  - exists [entry true]. repeat split.
    + apply bracketed_call; [apply Hplain|constructor].
    + simpl. rewrite Hok. reflexivity.
  - exists [entry false]. repeat split.
    + apply bracketed_call; [apply Hplain|constructor].
    + simpl. rewrite Hok. reflexivity.
    + simpl. rewrite Hok. reflexivity.
Qed.

Lemma disciplined_call (c : api Obj) :
  plain_call c = true -> disciplined (call (audited L) c).
Proof.
  intros Hc. apply disciplined_auditing.
  - intros ok. destruct c; try reflexivity; discriminate Hc.
  - intros ok. reflexivity.
Qed.

Lemma disciplined_np_sqrt (x : R) : disciplined (np_sqrt (audited L) x).
Proof. apply disciplined_auditing; intros ok; reflexivity. Qed.

Lemma disciplined_bind {A B : Type}
    (c : Py (St * list (event Obj)) E A)
    (k : A -> Py (St * list (event Obj)) E B) :
  disciplined c -> (forall a, disciplined (k a)) -> disciplined (bind c k).
Proof.
  intros Hc Hk s log. unfold bind.
  destruct (Hc s log) as (new1 & Hlog1 & Hbr1 & Hout1).
  destruct (c (s, log)) as [[s1 log1] [a|e]]; simpl in *.
  - subst log1.
    destruct (Hk a s1 (log ++ new1)) as (new2 & Hlog2 & Hbr2 & Hout2).
    exists (new1 ++ new2). rewrite app_assoc.
    split; [exact Hlog2|]. split; [apply bracketed_app; assumption|].
    destruct (snd (k a (s1, log ++ new1))).
    + rewrite forallb_app, Hout1, Hout2. reflexivity.
    + destruct Hout2 as [Hfail Hstops]. split.
      * apply failure_stays, Hfail.
      * rewrite stops_after_successes by exact Hout1. exact Hstops.
  - exists new1. repeat split; [exact Hlog1|exact Hbr1|apply Hout1..].
Qed.

(** A [with] block: entered once, left once, also when the body raises;
    not left when it could not be entered. *)
Lemma disciplined_with {A : Type} (mgr : Obj)
    (body : Obj -> Py (St * list (event Obj)) E A) :
  (forall v, disciplined (body v)) -> disciplined (with_ (audited L) mgr body).
Proof.
  intros Hbody s log. unfold with_. simpl. unfold auditing. simpl.
  destruct (call L (ctx_enter mgr) s) as [s1 [v|e]]; simpl.
  2: { exists [called (ctx_enter mgr) false].
       split; [reflexivity|]. split; [|split; reflexivity].
       apply bracketed_call; [reflexivity|constructor]. }
  destruct (Hbody v s1 (log ++ [called (ctx_enter mgr) true]))
    as (inner & Hlog & Hbr & Hout).
  destruct (body v (s1, log ++ [called (ctx_enter mgr) true]))
    as [[s2 log2] [a|e]]; simpl in *; subst log2.
  - unfold auditing. simpl.
    destruct (call L (ctx_exit mgr false) s2) as [s3 [w|e']]; simpl.
    + exists (called (ctx_enter mgr) true
              :: inner ++ [called (ctx_exit mgr false) true]).
      split; [rewrite <- !app_assoc; reflexivity|].
      split; [apply bracketed_block; [exact Hbr|constructor]|].
      simpl. rewrite forallb_app, Hout. reflexivity.
    + exists (called (ctx_enter mgr) true
              :: inner ++ [called (ctx_exit mgr false) false]).
      split; [rewrite <- !app_assoc; reflexivity|].
      split; [apply bracketed_block; [exact Hbr|constructor]|].
      simpl. split.
      * rewrite forallb_app. simpl. apply andb_false_r.
      * rewrite stops_after_successes by exact Hout. reflexivity.
  - destruct Hout as [Hfail Hstops]. unfold auditing. simpl.
    destruct (call L (ctx_exit mgr true) s2) as [s3 [w|e']]; simpl.
    + exists (called (ctx_enter mgr) true
              :: inner ++ [called (ctx_exit mgr true) true]).
      split; [rewrite <- !app_assoc; reflexivity|].
      split; [apply bracketed_block; [exact Hbr|constructor]|].
      simpl. split.
      * rewrite forallb_app, Hfail. reflexivity.
      * apply stops_then_leaves; [exact Hfail|exact Hstops|reflexivity].
    + exists (called (ctx_enter mgr) true
              :: inner ++ [called (ctx_exit mgr true) false]).
      split; [rewrite <- !app_assoc; reflexivity|].
      split; [apply bracketed_block; [exact Hbr|constructor]|].
      simpl. split.
      * rewrite forallb_app, Hfail. reflexivity.
      * apply stops_then_leaves; [exact Hfail|exact Hstops|reflexivity].
Qed.

End Discipline.

Section DisciplineOwn.

Context {St E Obj : Type}.
Variable L : Library St E Obj.
Variable OverflowError : E.

Lemma disciplined_leaves {A : Type} (c : Py (St * list (event Obj)) E A) :
  disciplined c -> leaves_its_blocks c.
Proof.
  intros Hc s log. destruct (Hc s log) as (new & Hlog & Hbr & _).
  exists new. split; assumption.
Qed.

Lemma disciplined_stops {A : Type} (c : Py (St * list (event Obj)) E A) :
  disciplined c -> stops_at_failure c.
Proof.
  intros Hc s log. destruct (Hc s log) as (new & Hlog & _ & Hout).
  exists new. split; assumption.
Qed.

Lemma disciplined_power2 (m : number) :
  no_overflow m ->
  disciplined (power2 (St := St * list (event Obj)) OverflowError m).
Proof.
  intros Hm. unfold power2. rewrite (pow2_in_range m Hm).
  apply disciplined_ret.
Qed.

(** Squaring calls nothing, whether it raises or not. *)
Lemma leaves_power2 (m : number) :
  leaves_its_blocks (power2 (St := St * list (event Obj)) OverflowError m).
Proof.
  intros s log. exists []. unfold power2, raise, ret.
  destruct (number_pow2 m); simpl; rewrite app_nil_r;
    split; try reflexivity; constructor.
Qed.

Lemma leaves_bind {A B : Type}
    (c : Py (St * list (event Obj)) E A)
    (k : A -> Py (St * list (event Obj)) E B) :
  leaves_its_blocks c -> (forall a, leaves_its_blocks (k a)) ->
  leaves_its_blocks (bind c k).
Proof.
  intros Hc Hk s log. unfold bind.
  destruct (Hc s log) as (new1 & Hlog1 & Hbr1).
  destruct (c (s, log)) as [[s1 log1] [a|e]]; simpl in *.
  - subst log1.
    destruct (Hk a s1 (log ++ new1)) as (new2 & Hlog2 & Hbr2).
    exists (new1 ++ new2). rewrite app_assoc.
    split; [exact Hlog2|apply bracketed_app; assumption].
  - exists new1. split; assumption.
Qed.

(** A [with] block is left whatever its body raises, the library's
    exception or the notebook's own. *)
Lemma leaves_with {A : Type} (mgr : Obj)
    (body : Obj -> Py (St * list (event Obj)) E A) :
  (forall v, leaves_its_blocks (body v)) ->
  leaves_its_blocks (with_ (audited L) mgr body).
Proof.
  intros Hbody s log. unfold with_. simpl. unfold auditing. simpl.
  destruct (call L (ctx_enter mgr) s) as [s1 [v|e]]; simpl.
  2: { exists [called (ctx_enter mgr) false].
       split; [reflexivity|].
       apply bracketed_call; [reflexivity|constructor]. }
  destruct (Hbody v s1 (log ++ [called (ctx_enter mgr) true]))
    as (inner & Hlog & Hbr).
  destruct (body v (s1, log ++ [called (ctx_enter mgr) true]))
    as [[s2 log2] [a|e]]; simpl in *; subst log2.
  - destruct (call L (ctx_exit mgr false) s2) as [s3 [w|e']]; simpl.
    + exists (called (ctx_enter mgr) true
              :: inner ++ [called (ctx_exit mgr false) true]).
      split; [rewrite <- !app_assoc; reflexivity|].
      apply bracketed_block; [exact Hbr|constructor].
    + exists (called (ctx_enter mgr) true
              :: inner ++ [called (ctx_exit mgr false) false]).
      split; [rewrite <- !app_assoc; reflexivity|].
      apply bracketed_block; [exact Hbr|constructor].
  - destruct (call L (ctx_exit mgr true) s2) as [s3 [w|e']]; simpl.
    + exists (called (ctx_enter mgr) true
              :: inner ++ [called (ctx_exit mgr true) true]).
      split; [rewrite <- !app_assoc; reflexivity|].
      apply bracketed_block; [exact Hbr|constructor].
    + exists (called (ctx_enter mgr) true
              :: inner ++ [called (ctx_exit mgr true) false]).
      split; [rewrite <- !app_assoc; reflexivity|].
      apply bracketed_block; [exact Hbr|constructor].
Qed.

End DisciplineOwn.

(** Walks through a cell statement by statement, block by block. *)
Ltac block_by_block :=
  repeat first
    [ apply disciplined_ret
    | apply disciplined_call; reflexivity
    | apply disciplined_np_sqrt
    | apply disciplined_power2; assumption
    | apply disciplined_with; intros
    | apply disciplined_bind; [|intros]
    | match goal with
      | |- disciplined (let '(_, _) := ?x in _) => destruct x
      end ].

Ltac block_by_block_or_own :=
  repeat first
    [ apply leaves_power2
    | apply disciplined_leaves;
      first [ apply disciplined_ret
            | apply disciplined_call; reflexivity
            | apply disciplined_np_sqrt ]
    | apply leaves_with; intros
    | apply leaves_bind; [|intros] ].

Section DisciplineCells.

Context {St E Obj : Type}.
Variable L : Library St E Obj.
Variable OverflowError : E.

Lemma cell_imports_disciplined : disciplined (cell_imports (audited L)).
Proof. unfold cell_imports. block_by_block. Qed.

Lemma cell_step1_disciplined : disciplined (cell_step1 (audited L)).
Proof. unfold cell_step1. block_by_block. Qed.

Lemma cell_step2_disciplined (model : Obj) :
  disciplined (cell_step2 (audited L) model).
Proof. unfold cell_step2. block_by_block. Qed.

Lemma cell_step3_disciplined (model inputA inputB A B combined prod : Obj) :
  disciplined (cell_step3 (audited L) model inputA inputB A B combined prod).
Proof. unfold cell_step3. block_by_block. Qed.

Lemma cell_step4_disciplined (model inputA inputB A B combined prod : Obj) :
  disciplined (cell_step4 (audited L) model inputA inputB A B combined prod).
Proof. unfold cell_step4. block_by_block. Qed.

Lemma cell_step5_disciplined (model : Obj) :
  disciplined (cell_step5 (audited L) model).
Proof. unfold cell_step5. block_by_block. Qed.

Lemma cell_step6_disciplined (sim A_probe B_probe prod_probe correct_ans : Obj) :
  disciplined
    (cell_step6 (audited L) sim A_probe B_probe prod_probe correct_ans).
Proof. unfold cell_step6. block_by_block. Qed.

Lemma Product_disciplined (n : Z) (m : number) :
  no_overflow m -> disciplined (Product (audited L) OverflowError n m).
Proof. intros Hm. unfold Product. block_by_block. Qed.

Lemma Product_leaves (n : Z) (m : number) :
  leaves_its_blocks (Product (audited L) OverflowError n m).
Proof. unfold Product. block_by_block_or_own. Qed.

Lemma cell_bonus_disciplined (correct_ans : Obj) :
  disciplined (cell_bonus (audited L) OverflowError correct_ans).
Proof.
  unfold cell_bonus.
  repeat first
    [ apply Product_disciplined; exact I
    | apply cell_step5_disciplined
    | apply cell_step6_disciplined
    | progress block_by_block ].
Qed.

Lemma flat_model_disciplined : disciplined (flat_model (audited L)).
Proof.
  unfold flat_model.
  repeat first
    [ apply cell_imports_disciplined
    | apply cell_step1_disciplined
    | apply cell_step2_disciplined
    | apply cell_step3_disciplined
    | apply cell_step4_disciplined
    | apply cell_step5_disciplined
    | apply cell_step6_disciplined
    | progress block_by_block ].
Qed.

Lemma notebook_disciplined :
  disciplined (notebook (audited L) OverflowError).
Proof.
  unfold notebook. apply disciplined_bind.
  - apply flat_model_disciplined.
  - intros ns. apply cell_bonus_disciplined.
Qed.

End DisciplineCells.

Ltac cell_by_cell :=
  repeat split; intros;
  first [ apply Product_leaves
        | first [ apply disciplined_leaves | apply disciplined_stops ];
          first [ apply cell_step1_disciplined
                | apply cell_step2_disciplined
                | apply cell_step3_disciplined
                | apply cell_step4_disciplined
                | apply cell_step5_disciplined
                | apply cell_step6_disciplined
                | apply Product_disciplined; assumption
                | apply cell_bonus_disciplined
                | apply notebook_disciplined ] ].

(** Against any library, every [with] block that a cell enters is left
    again, by the same context manager and in nesting order, whether its
    body completes or raises; a block that could not be entered is not
    left. This holds for every cell that opens a block, for [Product] on
    every argument, also where its own squaring raises, and for the
    notebook run top to bottom. *)
Theorem every_block_is_left
    {St E Obj : Type} (L : Library St E Obj) (OverflowError : E) :
  leaves_its_blocks (cell_step1 (audited L))
  /\ (forall model, leaves_its_blocks (cell_step2 (audited L) model))
  /\ (forall model inputA inputB A B combined prod,
        leaves_its_blocks
          (cell_step3 (audited L) model inputA inputB A B combined prod))
  /\ (forall model inputA inputB A B combined prod,
        leaves_its_blocks
          (cell_step4 (audited L) model inputA inputB A B combined prod))
  /\ (forall model, leaves_its_blocks (cell_step5 (audited L) model))
  /\ (forall n m, leaves_its_blocks (Product (audited L) OverflowError n m))
  /\ (forall correct_ans,
        leaves_its_blocks (cell_bonus (audited L) OverflowError correct_ans))
  /\ leaves_its_blocks (notebook (audited L) OverflowError).
Proof. cell_by_cell. Qed.

(** Against any library, a cell that completes has seen every call
    succeed, and a cell that raises makes, after the first call that fails,
    no call but those that leave the blocks it is in: nothing is declared,
    run or plotted after a failure. The same holds for the notebook run top
    to bottom, and for [Product] on every [input_magnitude] whose square is
    in range (an int, or a float of magnitude below [2 ** 512]), where
    nothing but a library call can fail. *)
Theorem nothing_runs_after_a_failure
    {St E Obj : Type} (L : Library St E Obj) (OverflowError : E) :
  stops_at_failure (cell_step1 (audited L))
  /\ (forall model, stops_at_failure (cell_step2 (audited L) model))
  /\ (forall model inputA inputB A B combined prod,
        stops_at_failure
          (cell_step3 (audited L) model inputA inputB A B combined prod))
  /\ (forall model inputA inputB A B combined prod,
        stops_at_failure
          (cell_step4 (audited L) model inputA inputB A B combined prod))
  /\ (forall model, stops_at_failure (cell_step5 (audited L) model))
  /\ (forall sim A_probe B_probe prod_probe correct_ans,
        stops_at_failure
          (cell_step6 (audited L) sim A_probe B_probe prod_probe correct_ans))
  /\ (forall n m,
        no_overflow m ->
        stops_at_failure (Product (audited L) OverflowError n m))
  /\ (forall correct_ans,
        stops_at_failure (cell_bonus (audited L) OverflowError correct_ans))
  /\ stops_at_failure (notebook (audited L) OverflowError).
Proof. cell_by_cell. Qed.

Lemma nothing_runs_after_a_failure_witness :
  stops_at_failure (Product (audited stalling) "OverflowError" 100 (pyint 10)).
Proof.
  destruct (nothing_runs_after_a_failure stalling "OverflowError")
    as (_ & _ & _ & _ & _ & _ & Hproduct & _).
  apply Hproduct. exact I.
Defined.

(** When running the simulator fails, the simulator block is left and
    nothing else is called. *)
Example simulator_is_left_when_the_run_fails :
  cell_step5 (audited stalling) tt (tt, [])
  = ((tt, [called (nengo_Simulator tt) true;
           called (ctx_enter tt) true;
           called (sim_run tt 5) false;
           called (ctx_exit tt true) true]),
     Raise "SimulationError").
Proof. reflexivity. Qed.

(** ** The connection function at the edges *)

(** [product] raises [IndexError] exactly on sequences of fewer than two
    components; on any longer one it multiplies the first two and ignores
    the rest. Both definitions of [product] behave so. *)
Theorem product_needs_two_components (x : list Q) :
  (product x = None <-> (List.length x < 2)%nat)
  /\ (Product_product x = None <-> (List.length x < 2)%nat)
  /\ forall (x0 x1 : Q) (rest : list Q),
       x = x0 :: x1 :: rest ->
       product x = Some (x0 * x1)%Q /\ Product_product x = Some (x0 * x1)%Q.
Proof.
  split; [|split].
  - destruct x as [|x0 [|x1 rest]]; simpl; split; intros H;
      try reflexivity; try lia; discriminate H.
  - destruct x as [|x0 [|x1 rest]]; simpl; split; intros H;
      try reflexivity; try lia; discriminate H.
  - intros x0 x1 rest ->. split; reflexivity.
Qed.

Lemma product_needs_two_components_witness :
  product [3; 4; 5]%Q = Some (3 * 4)%Q
  /\ Product_product [3; 4; 5]%Q = Some (3 * 4)%Q.
Proof.
  apply (proj2 (proj2 (product_needs_two_components [3; 4; 5]%Q))
           3%Q 4%Q [5%Q]).
  reflexivity.
Defined.

(** ** The subnetwork, call by call *)

Lemma made_by_new (new calls : trace) (k : nat) :
  made_by (new ++ calls) (k + List.length calls) = nth_error (rev new) k.
Proof.
  unfold made_by. rewrite rev_app_distr.
  rewrite nth_error_app2 by (rewrite length_rev; lia).
  rewrite length_rev. f_equal. lia.
Qed.

Lemma made_since_new (new calls : trace) :
  made_since calls (new ++ calls) = rev new.
Proof.
  unfold made_since. rewrite length_app.
  replace (List.length new + List.length calls - List.length calls)%nat
    with (List.length new + 0)%nat by lia.
  rewrite firstn_app_2. simpl. rewrite app_nil_r. reflexivity.
Qed.

(** Against the recording library only the squaring can make [Product]
    fail. *)
Lemma Product_returns_in_range {E : Type} (err : E) (n : Z) (m : number)
    (calls : trace) (o : nat) :
  snd (Product recorder err n m calls) = Ok o -> no_overflow m.
Proof.
  intros Hok. destruct (no_overflow_dec m) as [Hm|Hm]; [exact Hm|].
  rewrite (Product_overflow_recorded err n m calls Hm) in Hok.
  discriminate Hok.
Qed.

(** Settles which call made the [k]-th object created after [calls]. *)
Ltac maker calls k :=
  refine (eq_trans (made_by_new _ calls k) _); reflexivity.

Ltac stored :=
  cbn [attribute app]; rewrite ?Nat.eqb_refl;
  cbn [andb String.eqb Ascii.eqb Bool.eqb]; reflexivity.

(** Whatever [neuron_per_dimension], [input_magnitude] and the calls made
    before: when [Product], against a library that accepts its calls,
    returns, it returns a new network whose attributes [A], [B], [combined]
    and [prod] read back the objects it built, and it has made exactly three
    connections between them: [A] and [B], two distinct pass-through nodes
    of one dimension, go unfiltered ([synapse=None]) to components 0 and 1
    of [combined], and [combined] goes to [prod] through [product] with the
    default synapse. *)
Theorem Product_wires_what_it_stores (n : Z) (m : number) (calls : trace) :
  let after := fst (Product recorder "OverflowError" n m calls) in
  let model := List.length calls in
  snd (Product recorder "OverflowError" n m calls) = Ok model ->
  exists node_A node_B combined prod combined_0 combined_1 : nat,
    made_by after model = Some (nengo_Network "Product")
    /\ attribute model "A" after = Some node_A
    /\ made_by after node_A = Some (nengo_Node None (Some 1))
    /\ attribute model "B" after = Some node_B
    /\ made_by after node_B = Some (nengo_Node None (Some 1))
    /\ node_A <> node_B
    /\ attribute model "combined" after = Some combined
    /\ is_ensemble_made after combined
    /\ attribute model "prod" after = Some prod
    /\ is_ensemble_made after prod
    /\ made_by after combined_0 = Some (getitem combined 0)
    /\ made_by after combined_1 = Some (getitem combined 1)
    /\ filter is_connection (made_since calls after)
       = [nengo_Connection node_A combined_0 None synapse_none;
          nengo_Connection node_B combined_1 None synapse_none;
          nengo_Connection combined prod (Some Product_product)
            synapse_default].
Proof.
  intros after model Hreturns. subst after model.
  apply Product_returns_in_range in Hreturns.
  rewrite (Product_recorded "OverflowError" n m calls Hreturns). cbn [fst snd].
  exists (2 + List.length calls)%nat, (4 + List.length calls)%nat,
         (7 + List.length calls)%nat, (9 + List.length calls)%nat,
         (13 + List.length calls)%nat, (17 + List.length calls)%nat.
  split; [maker calls 0%nat|].
  split; [stored|].
  split; [maker calls 2%nat|].
  split; [stored|].
  split; [maker calls 4%nat|].
  split; [lia|].
  split; [stored|].
  split; [unfold is_ensemble_made;
          rewrite (made_by_new _ calls 7); reflexivity|].
  split; [stored|].
  split; [unfold is_ensemble_made;
          rewrite (made_by_new _ calls 9); reflexivity|].
  split; [maker calls 13%nat|].
  split; [maker calls 17%nat|].
  rewrite made_since_new. reflexivity.
Qed.

Lemma Product_wires_what_it_stores_witness :
  exists node_A node_B combined prod combined_0 combined_1 : nat,
    made_by (fst (Product recorder "OverflowError" 100 (pyint 10) [])) 0
    = Some (nengo_Network "Product")
    /\ attribute 0 "A" (fst (Product recorder "OverflowError" 100 (pyint 10) []))
       = Some node_A
    /\ made_by (fst (Product recorder "OverflowError" 100 (pyint 10) []))
         node_A
       = Some (nengo_Node None (Some 1))
    /\ attribute 0 "B" (fst (Product recorder "OverflowError" 100 (pyint 10) []))
       = Some node_B
    /\ made_by (fst (Product recorder "OverflowError" 100 (pyint 10) []))
         node_B
       = Some (nengo_Node None (Some 1))
    /\ node_A <> node_B
    /\ attribute 0 "combined"
         (fst (Product recorder "OverflowError" 100 (pyint 10) []))
       = Some combined
    /\ is_ensemble_made
         (fst (Product recorder "OverflowError" 100 (pyint 10) [])) combined
    /\ attribute 0 "prod"
         (fst (Product recorder "OverflowError" 100 (pyint 10) []))
       = Some prod
    /\ is_ensemble_made
         (fst (Product recorder "OverflowError" 100 (pyint 10) [])) prod
    /\ made_by (fst (Product recorder "OverflowError" 100 (pyint 10) []))
         combined_0
       = Some (getitem combined 0)
    /\ made_by (fst (Product recorder "OverflowError" 100 (pyint 10) []))
         combined_1
       = Some (getitem combined 1)
    /\ filter is_connection
         (made_since []
            (fst (Product recorder "OverflowError" 100 (pyint 10) [])))
       = [nengo_Connection node_A combined_0 None synapse_none;
          nengo_Connection node_B combined_1 None synapse_none;
          nengo_Connection combined prod (Some Product_product)
            synapse_default].
Proof.
  apply (Product_wires_what_it_stores 100 (pyint 10) []).
  reflexivity.
Defined.



(** ** Radii *)

Lemma square_within (a m : R) : (Rabs a <= m)%R -> (a ^ 2 <= m ^ 2)%R.
Proof.
  intros Ha. rewrite <- (pow2_abs a).
  apply pow_incr. split; [apply Rabs_pos|exact Ha].
Qed.

Lemma norm_within (a b m : R) :
  (Rabs a <= m)%R -> (Rabs b <= m)%R ->
  (sqrt (a ^ 2 + b ^ 2) <= sqrt (m ^ 2 + m ^ 2))%R.
Proof.
  intros Ha Hb. apply sqrt_le_1_alt.
  pose proof (square_within a m Ha). pose proof (square_within b m Hb).
  Lra.lra.
Qed.

Lemma sqrt_200_below_15 : (sqrt (10 ^ 2 + 10 ^ 2) <= 15)%R.
Proof.
  replace 15%R with (sqrt (15 * 15)) by (apply sqrt_square; Lra.lra).
  apply sqrt_le_1_alt. Lra.lra.
Qed.

(** The radius of the combined ensemble of Step 1 covers every pair of
    inputs within the magnitude 10 of the two input ensembles: every pair
    [(a, b)] with [|a| <= 10] and [|b| <= 10] has length at most 15. *)
Theorem combined_radius_covers_the_inputs (a b : R) :
  (Rabs a <= 10)%R -> (Rabs b <= 10)%R ->
  exists radius : R,
    ensemble_radius flat_trace (ns_combined flat_names) = Some radius
    /\ (sqrt (a ^ 2 + b ^ 2) <= radius)%R.
Proof.
  intros Ha Hb. exists 15%R. split; [reflexivity|].
  apply Rle_trans with (sqrt (10 ^ 2 + 10 ^ 2)).
  - apply norm_within; assumption.
  - apply sqrt_200_below_15.
Qed.

Lemma combined_radius_covers_the_inputs_witness :
  exists radius : R,
    ensemble_radius flat_trace (ns_combined flat_names) = Some radius
    /\ (sqrt (10 ^ 2 + (-10) ^ 2) <= radius)%R.
Proof.
  apply (combined_radius_covers_the_inputs 10%R (-10)%R).
  - rewrite Rabs_right; Lra.lra.
  - rewrite Rabs_left; Lra.lra.
Defined.

(** When [Product], against a library that accepts its calls, returns for a
    positive [input_magnitude] [m], the radius of its output ensemble, twice
    the magnitude, covers the product of every pair of inputs within the
    magnitude exactly when [m <= 2]; above that, some products of inputs
    within the magnitude lie outside it. *)
Theorem output_radius_covers_products_up_to_2
    (n : Z) (m : number) (calls : trace) :
  let after := fst (Product recorder "OverflowError" n m calls) in
  snd (Product recorder "OverflowError" n m calls) = Ok (List.length calls) ->
  (0 < real_of m)%R ->
  exists (prod : nat) (radius : R),
    attribute (List.length calls) "prod" after = Some prod
    /\ ensemble_radius after prod = Some radius
    /\ ((forall a b : R,
           (Rabs a <= real_of m)%R -> (Rabs b <= real_of m)%R ->
           (Rabs (a * b) <= radius)%R)
        <-> (real_of m <= 2)%R).
Proof.
  intros after Hreturns Hm. subst after.
  apply Product_returns_in_range in Hreturns.
  rewrite (Product_recorded "OverflowError" n m calls Hreturns). cbn [fst].
  exists (9 + List.length calls)%nat, (real_of (number_mul m 2)).
  split; [stored|].
  split; [unfold ensemble_radius;
          rewrite (made_by_new _ calls 9); reflexivity|].
  rewrite twice. generalize dependent (real_of m). clear. intros x Hx.
  split.
  - intros Hcovers.
    specialize (Hcovers x x).
    rewrite (Rabs_right x) in Hcovers by Lra.lra.
    specialize (Hcovers (Rle_refl x) (Rle_refl x)).
    rewrite Rabs_right in Hcovers by Lra.nra.
    Lra.nra.
  - intros Hsmall a b Ha Hb. rewrite Rabs_mult.
    pose proof (Rabs_pos a). pose proof (Rabs_pos b).
    Lra.nra.
Qed.

Lemma output_radius_covers_products_up_to_2_witness :
  exists (prod : nat) (radius : R),
    attribute 0 "prod"
      (fst (Product recorder "OverflowError" 100 (pyint 10) []))
    = Some prod
    /\ ensemble_radius
         (fst (Product recorder "OverflowError" 100 (pyint 10) [])) prod
       = Some radius
    /\ ((forall a b : R,
           (Rabs a <= 10)%R -> (Rabs b <= 10)%R ->
           (Rabs (a * b) <= radius)%R)
        <-> (10 <= 2)%R).
Proof.
  apply (output_radius_covers_products_up_to_2 100 (pyint 10) []).
  - reflexivity.
  - simpl. Lra.lra.
Defined.

Lemma radii_recorded :
  ensemble_radius notebook_trace 8 = Some 10%R
  /\ ensemble_radius notebook_trace 9 = Some 10%R
  /\ ensemble_radius notebook_trace 69 = Some 10%R
  /\ ensemble_radius notebook_trace 70 = Some 10%R
  /\ ensemble_radius flat_trace (ns_prod flat_names) = Some 20%R.
Proof. repeat split. Qed.

(** The ends of every connection of the notebook, with the signal the
    source puts out when it is an input node. *)
Lemma connection_ends_recorded :
  map (fun oc =>
         match snd oc with
         | nengo_Connection pre post _ _ =>
             (pre, post, node_signal notebook_trace pre)
         | _ => (0%nat, 0%nat, None)
         end)
    (connections notebook_trace)
  = [(17%nat, 8%nat, Some [(0, 0); (2.5, 10); (4, -10)]%Q);
     (19%nat, 9%nat, Some [(0, 10); (1.5, 2); (3, 0); (4.5, 2)]%Q);
     (8%nat, 25%nat, None); (9%nat, 27%nat, None); (10%nat, 11%nat, None);
     (73%nat, 84%nat, None); (75%nat, 88%nat, None); (78%nat, 80%nat, None);
     (66%nat, 69%nat, Some [(0, 0); (2.5, 10); (4, -10)]%Q);
     (68%nat, 70%nat, Some [(0, 10); (1.5, 2); (3, 0); (4.5, 2)]%Q);
     (69%nat, 73%nat, None); (70%nat, 75%nat, None)].
Proof. reflexivity. Qed.

Ltac within_radius :=
  unfold Q2R; simpl; apply Rabs_le; Lra.lra.

(** Every value an input signal can take lies within the radius of the
    ensemble the signal is connected to, in the model of Steps 1 to 3 and in
    the model of the last cell; every value of the reference signal lies
    within the radius of the output ensemble. *)
Theorem signal_values_lie_within_radii :
  (forall (pre post : nat) (f : option (list Q -> option Q)) (syn : synapse)
          (data : breakpoints) (radius : R) (t v : Q),
     In (nengo_Connection pre post f syn)
        (map snd (connections notebook_trace)) ->
     node_signal notebook_trace pre = Some data ->
     ensemble_radius notebook_trace post = Some radius ->
     In (t, v) data ->
     (Rabs (Q2R v) <= radius)%R)
  /\ forall (data : breakpoints) (radius : R) (t v : Q),
       process_data flat_trace (ns_correct_ans flat_names) = Some data ->
       ensemble_radius flat_trace (ns_prod flat_names) = Some radius ->
       In (t, v) data ->
       (Rabs (Q2R v) <= radius)%R.
Proof.
  destruct radii_recorded as (HA & HB & HA' & HB' & Hprod).
  split.
  - intros pre post f syn data radius t v Hconn Hsig Hrad Hv.
    destruct (proj1 (in_map_iff snd (connections notebook_trace) _) Hconn)
      as (oc & Hoc & Hoc_in).
    pose proof (in_map (fun oc =>
                  match snd oc with
                  | nengo_Connection pre post _ _ =>
                      (pre, post, node_signal notebook_trace pre)
                  | _ => (0%nat, 0%nat, None)
                  end) (connections notebook_trace) oc Hoc_in) as Hin.
    rewrite connection_ends_recorded in Hin.
    cbv beta in Hin. rewrite Hoc, Hsig in Hin.
    clear Hconn Hsig Hoc Hoc_in oc. cbn [In] in Hin.
    destruct Hin as [Hin|[Hin|[Hin|[Hin|[Hin|[Hin|[Hin|[Hin|[Hin|[Hin|[Hin|
                    [Hin|[]]]]]]]]]]]]];
      try discriminate Hin; injection Hin as <- <- <-;
      rewrite ?HA, ?HB, ?HA', ?HB' in Hrad; injection Hrad as <-;
      clear HA HB HA' HB' Hprod; cbn [In] in Hv;
      repeat (destruct Hv as [Hv|Hv]; [injection Hv as _ <-; within_radius|]);
      destruct Hv.
  - intros data radius t v Hdata Hrad Hv.
    rewrite correct_ans_recorded in Hdata. injection Hdata as <-.
    rewrite Hprod in Hrad. injection Hrad as <-.
    clear HA HB HA' HB' Hprod. cbn [In] in Hv.
    repeat (destruct Hv as [Hv|Hv]; [injection Hv as _ <-; within_radius|]).
    destruct Hv.
Qed.

Lemma signal_values_lie_within_radii_witness :
  (Rabs (Q2R (-10)) <= 10)%R /\ (Rabs (Q2R (-20)) <= 20)%R.
Proof.
  split.
  - apply (proj1 signal_values_lie_within_radii
             17%nat 8%nat None synapse_default
             [(0, 0); (2.5, 10); (4, -10)]%Q 10%R 4%Q (-10)%Q).
    + lazy. left. reflexivity.
    + reflexivity.
    + reflexivity.
    + lazy. do 2 right. left. reflexivity.
  - apply (proj2 signal_values_lie_within_radii
             [(0, 0); (1.5, 0); (2.5, 20); (3, 0); (4, 0); (4.5, -20)]%Q
             20%R 4.5%Q (-20)%Q).
    + reflexivity.
    + reflexivity.
    + lazy. do 5 right. left. reflexivity.
Defined.

(** ** Several subnetworks *)

Ltac compare_objects :=
  repeat match goal with
         | |- context [Nat.eqb ?a ?a] => rewrite (Nat.eqb_refl a)
         | |- context [Nat.eqb ?a ?b] =>
             replace (Nat.eqb a b) with false
               by (symmetry; apply Nat.eqb_neq; lia)
         end.

Ltac stored_across :=
  cbn [attribute app List.length]; compare_objects;
  cbn [andb String.eqb Ascii.eqb Bool.eqb]; reflexivity.

(** Two subnetworks built one after the other, against a library that
    accepts their calls, do not share anything: when both calls of
    [Product] return, the second returns another network, the attributes
    [A], [B], [combined] and [prod] of the first still read back what they
    did before the second call, and under each of these names the two
    networks hold different objects. *)
Theorem subnetworks_do_not_share
    (n1 n2 : Z) (m1 m2 : number) (calls : trace) (name : string)
    (first second : nat) :
  In name ["A"; "B"; "combined"; "prod"] ->
  let after1 := fst (Product recorder "OverflowError" n1 m1 calls) in
  let after2 := fst (Product recorder "OverflowError" n2 m2 after1) in
  snd (Product recorder "OverflowError" n1 m1 calls) = Ok first ->
  snd (Product recorder "OverflowError" n2 m2 after1) = Ok second ->
  exists o1 o2 : nat,
    first <> second
    /\ attribute first name after1 = Some o1
    /\ attribute first name after2 = Some o1
    /\ attribute second name after2 = Some o2
    /\ o1 <> o2.
Proof.
  intros Hname after1 after2 Hfirst Hsecond. subst after1 after2.
  pose proof (Product_returns_in_range _ _ _ _ _ Hfirst) as Hm1.
  pose proof (Product_returns_in_range _ _ _ _ _ Hsecond) as Hm2.
  revert Hfirst Hsecond.
  rewrite (Product_recorded "OverflowError" n1 m1 calls Hm1). cbn [fst snd].
  rewrite (Product_recorded "OverflowError" n2 m2 _ Hm2). cbn [fst snd].
  intros Hfirst Hsecond.
  injection Hfirst as <-. injection Hsecond as <-.
  destruct Hname as [<-|[<-|[<-|[<-|[]]]]].
  - exists (2 + List.length calls)%nat, (25 + List.length calls)%nat.
    split; [cbn [app List.length]; lia|].
    split; [stored_across|]. split; [stored_across|].
    split; [stored_across|lia].
  - exists (4 + List.length calls)%nat, (27 + List.length calls)%nat.
    split; [cbn [app List.length]; lia|].
    split; [stored_across|]. split; [stored_across|].
    split; [stored_across|lia].
  - exists (7 + List.length calls)%nat, (30 + List.length calls)%nat.
    split; [cbn [app List.length]; lia|].
    split; [stored_across|]. split; [stored_across|].
    split; [stored_across|lia].
  - exists (9 + List.length calls)%nat, (32 + List.length calls)%nat.
    split; [cbn [app List.length]; lia|].
    split; [stored_across|]. split; [stored_across|].
    split; [stored_across|lia].
Qed.

Lemma subnetworks_do_not_share_witness :
  exists o1 o2 : nat,
    0%nat <> 23%nat
    /\ attribute 0 "prod"
         (fst (Product recorder "OverflowError" 100 (pyint 10) []))
       = Some o1
    /\ attribute 0 "prod"
         (fst (Product recorder "OverflowError" 50 (pyint 1)
                 (fst (Product recorder "OverflowError" 100 (pyint 10) []))))
       = Some o1
    /\ attribute 23 "prod"
         (fst (Product recorder "OverflowError" 50 (pyint 1)
                 (fst (Product recorder "OverflowError" 100 (pyint 10) []))))
       = Some o2
    /\ o1 <> o2.
Proof.
  apply (subnetworks_do_not_share 100 50 (pyint 10) (pyint 1) [] "prod"
           0%nat 23%nat).
  - simpl. do 3 right. left. reflexivity.
  - reflexivity.
  - reflexivity.
Defined.

(** ** Names nobody reads *)

Lemma never_read_computed :
  Document.never_read (Document.code_cells Document.cells)
  = ["inputA_probe"; "inputB_probe"; "combined_probe";
     "inputA_probe"; "inputB_probe"; "combined_probe"].
Proof. vm_compute. reflexivity. Qed.

(** Of all the names the code cells create, exactly three are never read by
    any cell: [inputA_probe], [inputB_probe] and [combined_probe]. The two
    input probes and the probe on the combined ensemble are declared, in
    Step 4 and again in the last cell, and their data is never plotted. *)
Theorem three_probes_are_never_read (x : string) :
  In x (Document.never_read (Document.code_cells Document.cells))
  <-> x = "inputA_probe" \/ x = "inputB_probe" \/ x = "combined_probe".
Proof.
  rewrite never_read_computed. simpl. split.
  - intros [H|[H|[H|[H|[H|[H|[]]]]]]]; subst x; auto.
  - intros [H|[H|H]]; subst x; auto.
Qed.

Lemma three_probes_are_never_read_witness :
  In "combined_probe"
    (Document.never_read (Document.code_cells Document.cells)).
Proof.
  apply (proj2 (three_probes_are_never_read "combined_probe")).
  right. right. reflexivity.
Defined.
